(** * Job-search agent: scoring, ranking and normalisation pipeline

    A shallow embedding of the Python sources
      - [src/config/settings.py]
      - [src/agents/relevance_scorer.py]
      - [src/agents/manager.py]
      - [src/agents/job_scraper.py]
      - [src/agents/notification.py]
      - [src/main.py]
    followed by the properties of the pipeline that the specification
    states about them.

    Conventions of the embedding.
      - A Python [dict] with string keys is a [gmap string _]; the
        heterogeneous values found in job records are the small universe
        [pyval].
      - Python [float]s are exact rationals ([Q]); every constant of the
        sources is a short decimal, so no claim below depends on binary
        rounding.
      - An exception is a value of [exn]; code that may raise returns a
        [result].  [try/except] is a [match] on that result.
      - Strings are ASCII: [lower] folds A..Z only. *)

From Stdlib Require Import Ascii QArith Qround Lqa.
From stdpp Require Import gmap strings list sorting pretty.

Open Scope Q_scope.
Open Scope string_scope.
Open Scope list_scope.

(* ===================================================================== *)
(** ** Python values, exceptions and string primitives *)
(* ===================================================================== *)

Module Py.

(** Values stored in the key/value bags that the job sources deliver and
    that the agents extend. *)
Inductive pyval :=
| PNone
| PStr (s : string)
| PNum (x : Q)
| PDate (t : Z)              (* a [datetime], as a point on the clock *)
| PList (l : list string).   (* a list of strings, e.g. skills *)

Inductive exn :=
| KeyError (k : string)
| TypeError
| AttributeError
| JSONDecodeError.

Inductive result (A : Type) :=
| Ok (a : A)
| Raise (e : exn).
Arguments Ok {A} a.
Arguments Raise {A} e.

Definition is_ok {A} (r : result A) : bool :=
  match r with Ok _ => true | Raise _ => false end.

#[global] Instance result_ret : MRet result := fun _ a => Ok a.
#[global] Instance result_bind : MBind result := fun _ _ f m =>
  match m with Ok a => f a | Raise e => Raise e end.
#[global] Instance result_fmap : FMap result := fun _ _ f m =>
  match m with Ok a => Ok (f a) | Raise e => Raise e end.

(** [bool(v)] *)
Definition truthy (v : pyval) : bool :=
  match v with
  | PNone => false
  | PStr s => negb (String.eqb s "")
  | PNum x => negb (Qeq_bool x 0)
  | PDate _ => true
  | PList l => match l with [] => false | _ => true end
  end.

(** [a or b] *)
Definition py_or (a b : pyval) : pyval := if truthy a then a else b.

(** [d.get(k)] and [d.get(k, default)] *)
Definition get (d : gmap string pyval) (k : string) : pyval :=
  default PNone (d !! k).
Definition get_or (d : gmap string pyval) (k : string) (dflt : pyval) : pyval :=
  default dflt (d !! k).

(** [str(v)]; [repr] is the library's rendering of a value that is not
    a string. *)
Definition str_of (repr : pyval → string) (v : pyval) : string :=
  match v with PStr s => s | _ => repr v end.

(** [v == "literal"] *)
Definition eq_str (v : pyval) (s : string) : bool :=
  match v with PStr s' => String.eqb s' s | _ => false end.

(** [str.lower] on ASCII text: the letters A-Z are folded and every other
    character is kept, so a letter outside ASCII is not folded here. *)
Definition lower_ascii (c : ascii) : ascii :=
  let n := nat_of_ascii c in
  if (65 <=? n)%nat && (n <=? 90)%nat then ascii_of_nat (n + 32) else c.

Fixpoint lower (s : string) : string :=
  match s with
  | EmptyString => EmptyString
  | String c s' => String (lower_ascii c) (lower s')
  end.

(** [v.lower()]: only strings have the method. *)
Definition str_lower (v : pyval) : result string :=
  match v with
  | PStr s => Ok (lower s)
  | _ => Raise AttributeError
  end.

(** [needle in hay] on two strings. *)
Fixpoint contains (needle hay : string) : bool :=
  String.prefix needle hay ||
  match hay with
  | EmptyString => false
  | String _ hay' => contains needle hay'
  end.

(** [needle in v] for a string [needle]: substring test on a string,
    membership on a list, [TypeError] on anything else. *)
Definition str_in (needle : string) (v : pyval) : result bool :=
  match v with
  | PStr s => Ok (contains needle s)
  | PList l => Ok (bool_decide (needle ∈ l))
  | _ => Raise TypeError
  end.

(** [s.split(sep)] for a one-character separator. *)
Fixpoint split_on (sep : ascii) (cur : string) (s : string) : list string :=
  match s with
  | EmptyString => [String.rev cur]
  | String c s' =>
      if Ascii.eqb c sep then String.rev cur :: split_on sep "" s'
      else split_on sep (String c cur) s'
  end.
Definition split (sep : ascii) (s : string) : list string := split_on sep "" s.

(** [s.strip()] *)
Fixpoint lstrip (s : string) : string :=
  match s with
  | String c s' => if Ascii.is_space c then lstrip s' else s
  | EmptyString => EmptyString
  end.
Definition strip (s : string) : string :=
  String.rev (lstrip (String.rev (lstrip s))).

(** Iterating a value: a list yields its items, a string its
    characters; numbers and dates are not iterable. *)
Fixpoint chars (s : string) : list string :=
  match s with
  | EmptyString => []
  | String c s' => String c "" :: chars s'
  end.
Definition iter (v : pyval) : result (list string) :=
  match v with
  | PList l => Ok l
  | PStr s => Ok (chars s)
  | PNone | PNum _ | PDate _ => Raise TypeError
  end.

(** [round(x, 1)] on the exact value: nearest tenth, ties to even.  The
    code rounds the double it has computed, which gives the neighbouring
    tenth when the exact value is within float error of a tie; the
    properties below use a rounded value only up to a tenth. *)
Definition round_half_even (x : Q) : Z :=
  let n := Qfloor x in
  let frac := x - inject_Z n in
  match Qcompare frac (1 # 2) with
  | Lt => n
  | Gt => (n + 1)%Z
  | Eq => if Z.even n then n else (n + 1)%Z
  end.
Definition round1 (x : Q) : Q := inject_Z (round_half_even (x * 10)) / 10.

Definition of_nat (n : nat) : Q := inject_Z (Z.of_nat n).

(** [min(a, b)]: the first argument unless the second is smaller. *)
Definition py_min (a b : Q) : Q := if Qle_bool a b then a else b.

(** [list.sort(key=..., reverse=True)] and [sorted(..., reverse=True)]:
    Python's sort is stable, also when reversed.  Insertion from the
    right puts each element in front of the first later element whose
    key is not greater. *)
Section Sort.
Context {A K : Type} (leb : K → K → bool) (key : A → K).

Fixpoint insert_desc (x : A) (l : list A) : list A :=
  match l with
  | [] => [x]
  | y :: l' =>
      if leb (key y) (key x) then x :: y :: l'
      else y :: insert_desc x l'
  end.

Definition sort_desc (l : list A) : list A := foldr insert_desc [] l.
End Sort.

End Py.
Import Py.

(* ===================================================================== *)
(** ** [src/config/settings.py] *)
(* ===================================================================== *)

Module Settings.

(** [FINAL_SCORING_WEIGHTS], the "detailed scoring weights". *)
Definition FINAL_SCORING_WEIGHTS_items : list (string * Q) :=
  [ ("skills_match", 0.40);
    ("experience_match", 0.25);
    ("location_match", 0.20);
    ("company_fit", 0.15) ].

Definition FINAL_SCORING_WEIGHTS : gmap string Q :=
  list_to_map FINAL_SCORING_WEIGHTS_items.

(** [sum(weights.values())] *)
Definition weights_sum (weights : gmap string Q) : Q :=
  foldr Qplus 0 (map_to_list weights).*2.

End Settings.

(* ===================================================================== *)
(** ** The workflow state of the agents ([JobSearchState], a dict) *)
(* ===================================================================== *)

(** What a scoring call returns: the JSON object of the reasoning service
    or the dict built by the manual scorer.  A field is [None] when the
    object has no such key. *)
Record ScoreResult := {
  total_score : option Q;
  score_breakdown : option (gmap string Q);
  match_details : option (gmap string string)
}.

(** [{**job, "total_score": .., "score_breakdown": .., "match_details": ..}] *)
Record ScoredJob := {
  sj_job : gmap string pyval;
  sj_total_score : Q;
  sj_score_breakdown : gmap string Q;
  sj_match_details : gmap string string
}.

(** The state dict threaded through the agents.  A field is [None] when
    the key is absent from the dict. *)
Record State := {
  resume_data : option (gmap string pyval);
  job_listings : option (list (gmap string pyval));
  scored_listings : option (list ScoredJob);
  feedback : option (gmap string pyval);
  error_log : option (list string);
  resume_parsed : option bool;
  jobs_scraped : option bool;
  analysis_complete : option bool;
  feedback_processed : option bool;
  notification_sent : option bool;
  current_phase : option string;
  next_step : option string;
  results_summary : option string
}.

(** [state[k] = v] for the keys the agents assign. *)
Definition set_next_step (v : string) (s : State) : State :=
  {| resume_data := resume_data s; job_listings := job_listings s;
     scored_listings := scored_listings s; feedback := feedback s;
     error_log := error_log s; resume_parsed := resume_parsed s;
     jobs_scraped := jobs_scraped s; analysis_complete := analysis_complete s;
     feedback_processed := feedback_processed s;
     notification_sent := notification_sent s;
     current_phase := current_phase s; next_step := Some v;
     results_summary := results_summary s |}.

Definition set_current_phase (v : string) (s : State) : State :=
  {| resume_data := resume_data s; job_listings := job_listings s;
     scored_listings := scored_listings s; feedback := feedback s;
     error_log := error_log s; resume_parsed := resume_parsed s;
     jobs_scraped := jobs_scraped s; analysis_complete := analysis_complete s;
     feedback_processed := feedback_processed s;
     notification_sent := notification_sent s;
     current_phase := Some v; next_step := next_step s;
     results_summary := results_summary s |}.

Definition set_analysis_complete (v : bool) (s : State) : State :=
  {| resume_data := resume_data s; job_listings := job_listings s;
     scored_listings := scored_listings s; feedback := feedback s;
     error_log := error_log s; resume_parsed := resume_parsed s;
     jobs_scraped := jobs_scraped s; analysis_complete := Some v;
     feedback_processed := feedback_processed s;
     notification_sent := notification_sent s;
     current_phase := current_phase s; next_step := next_step s;
     results_summary := results_summary s |}.

Definition set_scored_listings (v : list ScoredJob) (s : State) : State :=
  {| resume_data := resume_data s; job_listings := job_listings s;
     scored_listings := Some v; feedback := feedback s;
     error_log := error_log s; resume_parsed := resume_parsed s;
     jobs_scraped := jobs_scraped s; analysis_complete := analysis_complete s;
     feedback_processed := feedback_processed s;
     notification_sent := notification_sent s;
     current_phase := current_phase s; next_step := next_step s;
     results_summary := results_summary s |}.

Definition set_notification_sent (v : bool) (s : State) : State :=
  {| resume_data := resume_data s; job_listings := job_listings s;
     scored_listings := scored_listings s; feedback := feedback s;
     error_log := error_log s; resume_parsed := resume_parsed s;
     jobs_scraped := jobs_scraped s; analysis_complete := analysis_complete s;
     feedback_processed := feedback_processed s;
     notification_sent := Some v;
     current_phase := current_phase s; next_step := next_step s;
     results_summary := results_summary s |}.

Definition set_results_summary (v : string) (s : State) : State :=
  {| resume_data := resume_data s; job_listings := job_listings s;
     scored_listings := scored_listings s; feedback := feedback s;
     error_log := error_log s; resume_parsed := resume_parsed s;
     jobs_scraped := jobs_scraped s; analysis_complete := analysis_complete s;
     feedback_processed := feedback_processed s;
     notification_sent := notification_sent s;
     current_phase := current_phase s; next_step := next_step s;
     results_summary := Some v |}.

(** [state.get(flag, False)] *)
Definition flag (f : option bool) : bool := default false f.

(* ===================================================================== *)
(** ** [src/agents/relevance_scorer.py] *)
(* ===================================================================== *)

Module RelevanceScorer.

(** [_score_position_match(job_title, desired_role)] *)
Definition _score_position_match (job_title desired_role : pyval) : result Q :=
  if negb (truthy job_title) || negb (truthy desired_role) then Ok 0.5
  else
    job_title ← str_lower job_title;
    desired_role ← str_lower desired_role;
    if String.eqb job_title desired_role then Ok 1.0
    else if contains desired_role job_title then Ok 0.9
    else if contains job_title desired_role then Ok 0.8
    else
      let job_words : gset string := list_to_set (String.words job_title) in
      let role_words : gset string := list_to_set (String.words desired_role) in
      let common_words := job_words ∩ role_words in
      if negb (bool_decide (common_words = ∅)) then
        Ok (0.7 * (of_nat (size common_words)
                   / of_nat (size job_words `max` size role_words)))
      else Ok 0.4.

(** [_score_skills_match(required_skills, candidate_skills)] *)
Definition _score_skills_match (required_skills candidate_skills : pyval)
  : result Q :=
  if negb (truthy required_skills) then Ok 0.7
  else if negb (truthy candidate_skills) then Ok 0.3
  else
    required ← iter required_skills;
    let required_lower := lower <$> required in
    candidate ← iter candidate_skills;
    let candidate_lower := lower <$> candidate in
    let matches :=
      length (List.filter (λ skill,
                existsb (λ candidate_skill,
                  contains candidate_skill skill
                  || contains skill candidate_skill) candidate_lower)
                required_lower) in
    Ok (py_min 1.0 (of_nat matches / of_nat (length required_lower))).

(** The "city/state" test shared by two branches of the location scorer:
    [any(part.strip() in job_location for part in location_parts)]. *)
Definition any_part_in (preferred_location job_location : string) : bool :=
  let location_parts := split "," preferred_location in
  existsb (λ part, contains (strip part) job_location) location_parts.

(** [_score_location_match(job_location, preferred_location, work_mode)] *)
Definition _score_location_match
    (job_location preferred_location work_mode : pyval) : result Q :=
  if negb (truthy job_location) then Ok 0.5
  else
    job_location ← str_lower job_location;
    if eq_str work_mode "Remote" && contains "remote" job_location then Ok 1.0
    else
      (* on-site or hybrid preference with a location *)
      r ← (if (eq_str work_mode "On-site" || eq_str work_mode "Hybrid")
               && truthy preferred_location
           then
             preferred_location ← str_lower preferred_location;
             if contains preferred_location job_location then Ok (Some 1.0)
             else if any_part_in preferred_location job_location
                  then Ok (Some 0.8)
             else Ok None
           else Ok None);
      match r with
      | Some x => Ok x
      | None =>
          if eq_str work_mode "Any" then
            if negb (truthy preferred_location) then Ok 0.7
            else
              preferred_location ← str_lower preferred_location;
              if contains preferred_location job_location then Ok 1.0
              else if any_part_in preferred_location job_location then Ok 0.8
              else Ok 0.4
          else Ok 0.4
      end.

(** [weights[k]] *)
Definition weight (weights : gmap string Q) (k : string) : result Q :=
  match weights !! k with
  | Some w => Ok w
  | None => Raise (KeyError k)
  end.

Section Collaborators.
(** Library formatting used by the f-strings of the explanations:
    [f"{x:.0f}"] and [str(v)] for a value that is not a string. *)
Variable fmt_0f : Q → string.
Variable repr : pyval → string.

(** [_manual_score_job], with the module-level weight table made an
    explicit argument. *)
Definition _manual_score_job_with (weights : gmap string Q)
    (job resume_data preferences : gmap string pyval) : result ScoreResult :=
  position_match ←
    _score_position_match (get_or job "title" (PStr ""))
                          (get_or resume_data "desired_role" (PStr ""));
  skills_match ←
    _score_skills_match (get_or job "required_skills" (PList []))
                        (get_or resume_data "skills" (PList []));
  location_match ←
    _score_location_match
      (get_or job "location" (PStr ""))
      (get_or resume_data "location_preference" (PStr ""))
      (get_or preferences "work_mode_preference" (PStr "Any"));
  let company_match := 70 in
  let salary_match := 65 in
  let benefits_match := 60 in
  (* the weighted sum, its subscripts evaluated left to right *)
  w_position ← weight weights "position_match";
  w_skills ← weight weights "skills_experience";
  w_location ← weight weights "location";
  w_company ← weight weights "company_match";
  w_salary ← weight weights "salary_match";
  w_benefits ← weight weights "benefits";
  let total :=
    (position_match * w_position + skills_match * w_skills
     + location_match * w_location + company_match * w_company
     + salary_match * w_salary + benefits_match * w_benefits) * 100 in
  Ok {| total_score := Some (round1 total);
        score_breakdown := Some (list_to_map
          [ ("position_match", position_match * 100);
            ("skills_experience", skills_match * 100);
            ("location", location_match * 100);
            ("company_match", company_match);
            ("salary_match", salary_match);
            ("benefits", benefits_match) ]);
        match_details := Some (list_to_map
          [ ("position_match",
             "The job title '" +:+ str_of repr (get_or job "title" (PStr ""))
             +:+ "' is a " +:+ fmt_0f (position_match * 100)
             +:+ "% match with desired role '"
             +:+ str_of repr (get_or resume_data "desired_role" (PStr ""))
             +:+ "'");
            ("skills_experience",
             "Matched " +:+ fmt_0f (skills_match * 100)
             +:+ "% of required skills");
            ("location",
             "Location match: " +:+ fmt_0f (location_match * 100) +:+ "%");
            ("company_match", "Company appears to be a reasonable match");
            ("salary_match", "Salary information limited");
            ("benefits", "Benefits information limited") ]) |}.

Definition _manual_score_job :=
  _manual_score_job_with Settings.FINAL_SCORING_WEIGHTS.

(** The reasoning service and the two library calls that read its
    answer: [self.llm.invoke(messages).content] for the prompt built
    from the three arguments, [re.search] for the fenced block
    (returning group 1) and [json.loads] ([None] is
    [JSONDecodeError]). *)
Variable llm_invoke :
  gmap string pyval → gmap string pyval → gmap string pyval → string.
Variable re_search_json_fence : string → option string.
Variable json_loads : string → option ScoreResult.

(** [_score_job]: the [try] body, then the [except] handler. *)
Definition _score_job (job resume_data preferences : gmap string pyval)
  : result ScoreResult :=
  let content := llm_invoke job resume_data preferences in
  let extracted :=
    match re_search_json_fence content with
    | Some group1 => json_loads group1
    | None => json_loads content
    end in
  match extracted with
  | Some r => Ok r
  | None => _manual_score_job job resume_data preferences
  end.

(** [score_result[k]] *)
Definition item {A} (k : string) (field : option A) : result A :=
  match field with Some v => Ok v | None => Raise (KeyError k) end.

(** The body of the scoring loop of [process]. *)
Definition score_one (resume_dict preferences job : gmap string pyval)
  : result ScoredJob :=
  score_result ← _score_job job resume_dict preferences;
  ts ← item "total_score" (total_score score_result);
  sb ← item "score_breakdown" (score_breakdown score_result);
  md ← item "match_details" (match_details score_result);
  Ok {| sj_job := job; sj_total_score := ts;
        sj_score_breakdown := sb; sj_match_details := md |}.

(** [scored_listings.sort(key=lambda x: x["total_score"], reverse=True)] *)
Definition sort_scored (l : list ScoredJob) : list ScoredJob :=
  sort_desc Qle_bool sj_total_score l.

(** [not resume_data]: the key is absent, or the dict is empty. *)
Definition no_resume (r : option (gmap string pyval)) : bool :=
  match r with
  | None => true
  | Some d => bool_decide (d = ∅)
  end.

(** [process(state)] *)
Definition process (state : State) : result State :=
  let resume_data := resume_data state in
  let job_listings := default [] (job_listings state) in
  let preferences := default ∅ (feedback state) in
  if no_resume resume_data || bool_decide (job_listings = []) then
    Ok (set_scored_listings [] (set_analysis_complete true state))
  else
    let resume_dict := default ∅ resume_data in
    scored_listings ← mapM (score_one resume_dict preferences) job_listings;
    let scored_listings := sort_scored scored_listings in
    Ok (set_scored_listings scored_listings
          (set_analysis_complete true state)).
End Collaborators.

End RelevanceScorer.

(* ===================================================================== *)
(** ** [src/agents/manager.py] *)
(* ===================================================================== *)

Module Manager.

(** [state.get("error_log") and len(state["error_log"]) > 0] *)
Definition has_errors (state : State) : bool :=
  match error_log state with
  | Some (e :: l) => (0 <? length (e :: l))%nat
  | Some [] | None => false
  end.

(** [determine_next_step(state)] *)
Definition determine_next_step (state : State) : State :=
  if has_errors state then set_next_step "complete" state
  else if negb (flag (resume_parsed state)) then
    set_next_step "resume_parser" state
  else if negb (flag (jobs_scraped state)) then
    set_next_step "job_scraper" state
  else if negb (flag (analysis_complete state)) then
    set_next_step "relevance_scorer" state
  else if negb (flag (feedback_processed state)) then
    set_next_step "feedback_refiner" state
  else if negb (flag (notification_sent state)) then
    set_next_step "notification" state
  else set_next_step "complete" state.

(** [process(state)] *)
Definition process (state : State) : State :=
  let next_phase := default "unknown" (next_step state) in
  determine_next_step (set_current_phase next_phase state).

End Manager.

(* ===================================================================== *)
(** ** [src/agents/job_scraper.py] *)
(* ===================================================================== *)

Module JobScraper.

(** [s.replace('Z', '+00:00')] *)
Fixpoint replace_Z (s : string) : string :=
  match s with
  | EmptyString => EmptyString
  | String c s' =>
      if Ascii.eqb c "Z" then "+00:00" +:+ replace_Z s'
      else String c (replace_Z s')
  end.

(** [timedelta(days=n)], in seconds. *)
Definition days (n : Z) : Z := (n * 86400)%Z.

Section Normalize.
(** [str(hash(str(job)))], the built-in hash of the record's text;
    [datetime.fromisoformat] ([None] is [ValueError]). *)
Variable hash_str : gmap string pyval → string.
Variable fromisoformat : string → option Z.

(** [_normalize_job_data(job)], run when the clock reads [now]. *)
Definition _normalize_job_data (now : Z) (job : gmap string pyval)
  : result (gmap string pyval) :=
  let job_id :=
    get_or job "id" (get_or job "jobId" (PStr (hash_str job))) in
  let title :=
    get_or job "title" (get_or job "name" (PStr "Unknown Position")) in
  let company :=
    get_or job "company"
      (get_or job "companyName" (PStr "Unknown Company")) in
  let location :=
    get_or job "location" (get_or job "place" (PStr "Unknown Location")) in
  let url :=
    get_or job "url"
      (get_or job "link" (get_or job "applicationLink" (PStr ""))) in
  is_linkedin ← str_in "linkedin" (get_or job "url" (PStr ""));
  let source := if is_linkedin : bool then "LinkedIn" else "Indeed" in
  let normalized : gmap string pyval :=
    list_to_map
      [ ("job_id", job_id); ("title", title); ("company", company);
        ("location", location); ("url", url); ("source", PStr source) ] in
  (* handle posted date *)
  let posted_date :=
    get_or job "postedDate"
      (get_or job "date" (get_or job "listedAt" PNone)) in
  let a_week_ago := PDate (now - days 7) in
  match posted_date with
  | PStr s =>
      match fromisoformat (replace_Z s) with
      | Some t => Ok (<["posted_date" := PDate t]> normalized)
      | None => Ok (<["posted_date" := a_week_ago]> normalized)
      end
  | _ => Ok (<["posted_date" := a_week_ago]> normalized)
  end.

(** The normalisation of the loop over [linkedin_jobs + indeed_jobs] in
    [process]; the first record that raises aborts the loop. *)
Definition normalize_all (now : Z) (jobs : list (gmap string pyval))
  : result (list (gmap string pyval)) :=
  mapM (_normalize_job_data now) jobs.
End Normalize.

End JobScraper.

(* ===================================================================== *)
(** ** [src/agents/notification.py] *)
(* ===================================================================== *)

Module Notification.

(** [skill_count[skill] = skill_count.get(skill, 0) + 1] on a dict, which
    keeps its keys in the order of their first insertion. *)
Fixpoint bump (skill : string) (skill_count : list (string * nat))
  : list (string * nat) :=
  match skill_count with
  | [] => [(skill, 1%nat)]
  | (k, n) :: rest =>
      if String.eqb k skill then (k, (n + 1)%nat) :: rest
      else (k, n) :: bump skill rest
  end.

(** The two nested loops of [_extract_common_skills]. *)
Fixpoint count_skills (jobs : list (gmap string pyval))
    (skill_count : list (string * nat)) : result (list (string * nat)) :=
  match jobs with
  | [] => Ok skill_count
  | job :: rest =>
      skills ← iter (get_or job "required_skills" (PList []));
      count_skills rest (foldl (λ d skill, bump skill d) skill_count skills)
  end.

(** [_extract_common_skills(jobs)] *)
Definition _extract_common_skills (jobs : list (gmap string pyval))
  : result (list (string * nat)) :=
  skill_count ← count_skills jobs [];
  Ok (sort_desc Nat.leb snd skill_count).

(** The "Most Requested Skills" lines of [_format_results_summary]:
    [skills_mentioned[:5]]. *)
Definition most_requested_skills (scored_listings : list ScoredJob)
  : result (list (string * nat)) :=
  skills_mentioned ← _extract_common_skills (sj_job <$> scored_listings);
  Ok (take 5 skills_mentioned).

End Notification.

(* ===================================================================== *)
(** ** [src/main.py]: the [JobSearchWorkflow] actor *)
(* ===================================================================== *)

Module Main.

Definition JOBS_PER_SOURCE : nat := 10.

(** [standardize_job_data(job)]; [None] is the Python [None], returned
    for a record without title or company and by the [except] clause. *)
Definition standardize_job_data (job : gmap string pyval)
  : option (gmap string pyval) :=
  let title :=
    py_or (py_or (get job "title") (get job "positionName"))
          (get_or job "name" (PStr "")) in
  let company := py_or (get job "company") (get_or job "companyName" (PStr "")) in
  let location := py_or (get job "location") (get_or job "place" (PStr "")) in
  let description :=
    py_or (get job "description") (get_or job "jobDescription" (PStr "")) in
  let url := py_or (get job "url") (get_or job "applicationLink" (PStr "")) in
  match str_in "linkedin.com" (get_or job "url" (PStr "")) with
  | Raise _ => None
  | Ok is_linkedin =>
      let source := if is_linkedin : bool then "LinkedIn" else "Indeed" in
      let standardized : gmap string pyval :=
        list_to_map
          [ ("title", title); ("company", company); ("location", location);
            ("description", description); ("url", url);
            ("source", PStr source) ] in
      (* skip jobs with missing essential data *)
      if negb (truthy title) || negb (truthy company) then None
      else Some standardized
  end.

(** The last loop of [search_jobs], "standardize all jobs with limit". *)
Fixpoint standardize_loop (all_jobs standardized_jobs : list (gmap string pyval))
  : list (gmap string pyval) :=
  match all_jobs with
  | [] => standardized_jobs
  | job :: rest =>
      if (JOBS_PER_SOURCE * 2 <=? length standardized_jobs)%nat
      then standardized_jobs
      else
        match standardize_job_data job with
        | Some standardized_job =>
            standardize_loop rest (standardized_jobs ++ [standardized_job])%list
        | None => standardize_loop rest standardized_jobs
        end
  end.

Definition standardize_all (all_jobs : list (gmap string pyval))
  : list (gmap string pyval) :=
  standardize_loop all_jobs [].

(** The JSON object of per-category scores as [score_jobs] reads it: a
    category field is [Some v] when [scores[cat]] is a dict with a
    ["score"] key holding [v]; [sc_total_score] is [scores["total_score"]]
    when the key is present. *)
Record Scores := {
  sc_skills_match : option pyval;
  sc_experience_match : option pyval;
  sc_location_match : option pyval;
  sc_company_fit : option pyval;
  sc_total_score : option pyval
}.

(** [job.copy()] with ["match_score"] and ["total_score"] added. *)
Record MatchedJob := {
  mj_job : gmap string pyval;
  mj_match_score : Scores;
  mj_total_score : Q
}.

(** [v * w] for a float [w]. *)
Definition times (v : pyval) (w : Q) : result Q :=
  match v with
  | PNum x => Ok (x * w)
  | _ => Raise TypeError
  end.

(** One [if cat in scores and ...: total_score += ...] statement. *)
Definition add_category (weights : gmap string Q) (cat : option pyval)
    (k : string) (dflt : Q) (total_score : Q) : result Q :=
  match cat with
  | Some v => x ← times v (default dflt (weights !! k)); Ok (total_score + x)
  | None => Ok total_score
  end.

(** "Ensure total_score is a number": the total is kept when it is one,
    and computed from the categories otherwise. *)
Definition ensure_total (scores : Scores) : result Q :=
  match sc_total_score scores with
  | Some (PNum t) => Ok t
  | _ =>
      let weights := Settings.FINAL_SCORING_WEIGHTS in
      let total_score := 0 in
      total_score ← add_category weights (sc_skills_match scores)
                      "skills_match" 0.3 total_score;
      total_score ← add_category weights (sc_experience_match scores)
                      "experience_match" 0.25 total_score;
      total_score ← add_category weights (sc_location_match scores)
                      "location_match" 0.25 total_score;
      total_score ← add_category weights (sc_company_fit scores)
                      "company_fit" 0.2 total_score;
      Ok total_score
  end.

Definition with_total (t : Q) (scores : Scores) : Scores :=
  {| sc_skills_match := sc_skills_match scores;
     sc_experience_match := sc_experience_match scores;
     sc_location_match := sc_location_match scores;
     sc_company_fit := sc_company_fit scores;
     sc_total_score := Some (PNum t) |}.

(** The "basic score" of the inner [except] clause. *)
Definition basic_scores : Scores :=
  {| sc_skills_match := Some (PNum 70);
     sc_experience_match := Some (PNum 70);
     sc_location_match := Some (PNum 70);
     sc_company_fit := Some (PNum 70);
     sc_total_score := Some (PNum 70) |}.

Section Scoring.
(** The chat completion for a job's prompt: [Raise] stands for anything
    raised while the prompt is built or the service is called, outside
    the inner [try].  [json_loads] reads the answer ([None] is
    [JSONDecodeError]).  [charged job] tells whether the charge event
    pushed once [job] is scored ([await Actor.push_data]) is accepted;
    when it is not, the call raises inside the inner [try], after the
    scored record has been appended. *)
Variable chat_completion : gmap string pyval → result string.
Variable json_loads : string → option Scores.
Variable charged : gmap string pyval → bool.

(** The inner [try] block of the loop of [score_jobs], up to the record
    it appends. *)
Definition try_score (job : gmap string pyval) (content : string)
  : result MatchedJob :=
  match json_loads content with
  | None => Raise JSONDecodeError
  | Some scores =>
      t ← ensure_total scores;
      Ok {| mj_job := job; mj_match_score := with_total t scores;
            mj_total_score := t |}
  end.

(** The record of the inner [except] clause. *)
Definition basic_record (job : gmap string pyval) : MatchedJob :=
  {| mj_job := job; mj_match_score := basic_scores; mj_total_score := 70 |}.

(** One iteration of the loop: the records it appends to [scored_jobs].
    The [except] clause appends the basic record whatever was raised in
    the [try] block, also when that was the charging call, which comes
    after the scored record has been appended. *)
Definition score_one (job : gmap string pyval) : result (list MatchedJob) :=
  content ← chat_completion job;
  match try_score job content with
  | Ok scored_job =>
      if charged job then Ok [scored_job]
      else Ok [scored_job; basic_record job]
  | Raise _ => Ok [basic_record job]
  end.

(** [scored_jobs.sort(key=lambda x: x.get("total_score", 0), reverse=True)] *)
Definition sort_scored (l : list MatchedJob) : list MatchedJob :=
  sort_desc Qle_bool mj_total_score l.

(** [score_jobs]: the value stored under [state["scored_jobs"]] for
    [state["jobs"] = jobs]. *)
Definition score_jobs (jobs : list (gmap string pyval)) : list MatchedJob :=
  match mapM score_one jobs with
  | Ok appended => sort_scored (concat appended)
  | Raise _ => []
  end.
End Scoring.

(** The pass over the descriptions in [format_results]. *)
Definition common_skills : list string :=
  [ "Python"; "JavaScript"; "Java"; "C++"; "React"; "Angular"; "Node.js";
    "AWS"; "Azure"; "SQL"; "NoSQL"; "Docker"; "Kubernetes";
    "Machine Learning" ].

Definition add_skills (description : string) (all_skills : list string)
  : list string :=
  foldl (λ all_skills skill,
           if contains (lower skill) (lower description)
              && negb (bool_decide (skill ∈ all_skills))
           then (all_skills ++ [skill])%list else all_skills)
        all_skills common_skills.

Fixpoint extract_skills (scored_jobs : list MatchedJob)
    (all_skills : list string) : result (list string) :=
  match scored_jobs with
  | [] => Ok all_skills
  | job :: rest =>
      let description :=
        py_or (get_or (mj_job job) "description" (PStr ""))
              (get_or (mj_job job) "jobDescription" (PStr "")) in
      if truthy description then
        match description with
        | PStr d => extract_skills rest (add_skills d all_skills)
        | _ => Raise AttributeError          (* [description.lower()] *)
        end
      else extract_skills rest all_skills
  end.

Record Statistics := {
  totalJobsFound : nat;
  averageMatchScore : option Q;
  topSkillsRequested : option (list string)
}.

(** The ["statistics"] object of [format_results]; the [except] clause
    reports a count of zero and nothing else. *)
Definition statistics (scored_jobs : list MatchedJob) : Statistics :=
  let total_jobs := length scored_jobs in
  let avg_score :=
    if (0 <? total_jobs)%nat
    then foldr Qplus 0 (mj_total_score <$> scored_jobs) / of_nat total_jobs
    else 0 in
  match extract_skills scored_jobs [] with
  | Ok all_skills =>
      {| totalJobsFound := total_jobs;
         averageMatchScore := Some (round1 avg_score);
         topSkillsRequested := Some (take 5 all_skills) |}
  | Raise _ =>
      {| totalJobsFound := 0; averageMatchScore := None;
         topSkillsRequested := None |}
  end.

(** The ["source"] of a result entry of [format_results]. *)
Definition result_source (repr : pyval → string) (job : gmap string pyval)
  : string :=
  if existsb (λ x, contains x (str_of repr (get_or job "url" (PStr ""))))
             [ "linkedin.com"; "lnkd.in" ]
  then "LinkedIn" else "Indeed".

End Main.

(* ===================================================================== *)
(** ** [src/agents/job_scraper.py]: preliminary scoring and selection *)
(* ===================================================================== *)

Module PreScorer.

(** [INITIAL_SCORING_WEIGHTS] and the two entries of [JOB_SEARCH_CONFIG]
    that [process] reads ([src/config/settings.py]). *)
Definition INITIAL_SCORING_WEIGHTS : list (string * Q) :=
  [ ("title_match", 0.4); ("location_match", 0.3);
    ("company_relevance", 0.2); ("posting_date", 0.1) ].
Definition detail_fetch_threshold : Q := 0.6.
Definition max_details_to_fetch : nat := 5.

(** The attributes of [ResumeData] that the scraper reads; the model
    class types them. *)
Record ResumeData := {
  desired_role : string;
  location_preference : string;
  industry_experience : list string
}.

(** [d[k]] *)
Definition getitem (d : gmap string pyval) (k : string) : result pyval :=
  match d !! k with
  | Some v => Ok v
  | None => Raise (KeyError k)
  end.

(** [_score_title_match(job_title, desired_role)] *)
Definition _score_title_match (job_title : pyval) (desired_role : string)
  : result Q :=
  job_title ← str_lower job_title;
  let desired_role := lower desired_role in
  if String.eqb job_title desired_role then Ok 1.0
  else if contains desired_role job_title || contains job_title desired_role
       then Ok 0.8
  else Ok 0.4.

(** [_score_location_match(job_location, preferred_location)] *)
Definition _score_location_match (job_location : pyval)
    (preferred_location : string) : result Q :=
  if negb (truthy job_location) || String.eqb preferred_location "" then Ok 0.5
  else
    job_location ← str_lower job_location;
    let preferred_location := lower preferred_location in
    if contains "remote" job_location then Ok 1.0
    else if contains preferred_location job_location then Ok 1.0
    else Ok 0.5.

(** [_score_company_relevance(company, industry_experience)] *)
Definition _score_company_relevance (company : pyval)
    (industry_experience : list string) : Q := 0.7.

(** [_score_posting_date(posted_date)] when the clock reads [now]:
    [(datetime.now() - posted_date).days] is the whole number of days,
    rounded down.  [PDate t] is a datetime without a time zone, as the
    clock's is; clock and dates are counted in seconds.  A date that
    carries an offset makes the subtraction raise: see [score_initial]. *)
Definition _score_posting_date (now : Z) (posted_date : pyval) : result Q :=
  match posted_date with
  | PDate t =>
      let days_old := ((now - t) / 86400)%Z in
      if (days_old <=? 7)%Z then Ok 1.0
      else if (days_old <=? 14)%Z then Ok 0.8
      else if (days_old <=? 21)%Z then Ok 0.6
      else Ok 0.4
  | _ => Raise TypeError
  end.

(** [_calculate_initial_score(job, resume_data)]; the clock is read once
    for the job. *)
Definition _calculate_initial_score (now : Z) (job : gmap string pyval)
    (resume_data : ResumeData) : result Q :=
  title ← getitem job "title";
  title_match ← _score_title_match title (desired_role resume_data);
  location ← getitem job "location";
  location_match ←
    _score_location_match location (location_preference resume_data);
  company ← getitem job "company";
  let company_relevance :=
    _score_company_relevance company (industry_experience resume_data) in
  posting_date ← _score_posting_date now (get_or job "posted_date" (PDate now));
  let scores : gmap string Q :=
    list_to_map [ ("title_match", title_match);
                  ("location_match", location_match);
                  ("company_relevance", company_relevance);
                  ("posting_date", posting_date) ] in
  Ok (foldl (λ total kw, total + default 0 (scores !! kw.1) * kw.2) 0
            INITIAL_SCORING_WEIGHTS).

(** [j["initial_score"]], for a record that [process] has scored. *)
Definition initial_score (j : gmap string pyval) : Q :=
  match j !! "initial_score" with
  | Some (PNum x) => x
  | _ => 0
  end.

(** The selection of the promising jobs:
    [sorted([j for j in all_jobs if j["initial_score"] >= threshold],
            key=..., reverse=True)[:max_details_to_fetch]] *)
Definition promising (all_jobs : list (gmap string pyval))
  : list (gmap string pyval) :=
  take max_details_to_fetch
    (sort_desc Qle_bool initial_score
       (List.filter (λ j, Qle_bool detail_fetch_threshold (initial_score j))
                    all_jobs)).

(** The posting date of a raw record, as [_normalize_job_data] resolves
    it. *)
Definition resolved_date (job : gmap string pyval) : pyval :=
  get_or job "postedDate" (get_or job "date" (get_or job "listedAt" PNone)).

Section Process.
Variable hash_str : gmap string pyval → string.
Variable fromisoformat : string → option Z.
(** Whether the datetime that [fromisoformat] reads from a string carries
    a UTC offset, as every string does that ended in ['Z']. *)
Variable carries_offset : string → bool.
(** [self.run_actor(actor_id=self.linkedin_detail_actor,
                    input_data={"url": url})] *)
Variable run_detail_actor : pyval → result (list (gmap string pyval)).

(** The posting date of the normalized record carries an offset: it was
    read from a string that has one. *)
Definition offset_aware (job : gmap string pyval) : bool :=
  match resolved_date job with
  | PStr d =>
      match fromisoformat (JobScraper.replace_Z d) with
      | Some _ => carries_offset (JobScraper.replace_Z d)
      | None => false
      end
  | _ => false
  end.

(** The loop of [_fetch_job_details(job_urls)]. *)
Fixpoint fetch_loop (job_urls : list pyval)
    (detailed_jobs : list (gmap string pyval))
  : result (list (gmap string pyval)) :=
  match job_urls with
  | [] => Ok detailed_jobs
  | url :: rest =>
      is_linkedin ← str_in "linkedin.com" url;
      if is_linkedin : bool then
        job_details ← run_detail_actor url;
        fetch_loop rest (detailed_jobs ++ job_details)
      else fetch_loop rest detailed_jobs
  end.

Definition _fetch_job_details (job_urls : list pyval)
  : result (list (gmap string pyval)) :=
  fetch_loop job_urls [].

(** One turn of the loop "combine and score initial results".  The
    posting date is the last score to be computed that can raise, and
    [datetime.now() - posted_date] raises [TypeError] for a date that
    carries an offset, the clock's having none. *)
Definition score_initial (now : Z) (resume_data : ResumeData)
    (job : gmap string pyval) : result (gmap string pyval) :=
  normalized_job ← JobScraper._normalize_job_data hash_str fromisoformat now job;
  score ← _calculate_initial_score now normalized_job resume_data;
  if offset_aware job then Raise TypeError
  else Ok (<["initial_score" := PNum score]> normalized_job).

(** [process], from the two search results on: the value it stores under
    [state["job_listings"]]. *)
Definition process_listings (now : Z) (resume_data : ResumeData)
    (linkedin_jobs indeed_jobs : list (gmap string pyval))
  : result (list (gmap string pyval)) :=
  all_jobs ← mapM (score_initial now resume_data) (linkedin_jobs ++ indeed_jobs);
  let promising_jobs := promising all_jobs in
  let job_urls := omap (λ job : gmap string pyval, job !! "url") promising_jobs in
  detailed_jobs ← _fetch_job_details job_urls;
  Ok (match detailed_jobs with
      | [] => promising_jobs
      | _ => detailed_jobs
      end).
End Process.

End PreScorer.

(* ===================================================================== *)
(** ** [src/utils/retry.py] *)
(* ===================================================================== *)

Module Retry.

(** [RETRY_ATTEMPTS] and [RETRY_DELAY] of [src/config/settings.py]. *)
Definition RETRY_ATTEMPTS : Z := 3.
Definition RETRY_DELAY : Z := 5.

(** [x or dflt] for an optional integer. *)
Definition or_default (x : option Z) (dflt : Z) : Z :=
  match x with
  | Some v => if (v =? 0)%Z then dflt else v
  | None => dflt
  end.

(** How a call of the wrapper ends. *)
Inductive outcome (A E : Type) :=
| Returned (a : A)
| Reraised (e : E)
| SleepRejected            (* [time.sleep] refuses a negative delay *)
| RuntimeError.
Arguments Returned {A E} a.
Arguments Reraised {A E} e.
Arguments SleepRejected {A E}.
Arguments RuntimeError {A E}.

(** What a call of the wrapper did: how it ended, how often it called the
    function and how long it slept. *)
Record run (A E : Type) := {
  ending : outcome A E;
  calls : nat;
  slept : Z
}.
Arguments ending {A E} r.
Arguments calls {A E} r.
Arguments slept {A E} r.

Section Wrapper.
Context {A E : Type}.
(** The wrapped function, by the number of calls made before: each call
    returns a value or raises. *)
Variable func : nat → A + E.
Variables max_attempts delay : Z.

(** The [while] loop of [wrapper]; [attempts] failed calls have been made
    and [fuel] bounds the turns that remain. *)
Fixpoint loop (fuel attempts : nat) (slept : Z) : option (run A E) :=
  if negb (Z.of_nat attempts <? max_attempts)%Z then
    Some {| ending := RuntimeError; calls := attempts; slept := slept |}
  else
    match fuel with
    | O => None
    | S fuel' =>
        match func attempts with
        | inl a =>
            Some {| ending := Returned a; calls := S attempts; slept := slept |}
        | inr e =>
            let attempts := S attempts in
            if (max_attempts <=? Z.of_nat attempts)%Z then
              Some {| ending := Reraised e; calls := attempts; slept := slept |}
            else if (delay <? 0)%Z then
              Some {| ending := SleepRejected; calls := attempts; slept := slept |}
            else loop fuel' attempts (slept + delay)%Z
        end
    end.
End Wrapper.

(** [with_retry(max_attempts, delay)(func)(...)] *)
Definition with_retry {A E} (max_attempts delay : option Z) (func : nat → A + E)
  : option (run A E) :=
  let max_attempts := or_default max_attempts RETRY_ATTEMPTS in
  let delay := or_default delay RETRY_DELAY in
  loop func max_attempts delay (Z.to_nat max_attempts) 0 0.

End Retry.

(* ===================================================================== *)
(** ** [src/agents/notification.py]: the summary and [process] *)
(* ===================================================================== *)

Module Summary.

(** [sep.join(lines)] *)
Fixpoint join (sep : string) (lines : list string) : string :=
  match lines with
  | [] => ""
  | [line] => line
  | line :: rest => line +:+ sep +:+ join sep rest
  end.

Definition newline : string := String "010" "".

Section Format.
(** Library formatting: [f"{x:.1f}"], [str(v)] of a value that is not a
    string, and [datetime.now().strftime('%Y-%m-%d %H:%M:%S')]. *)
Variable fmt_1f : Q → string.
Variable repr : pyval → string.
Variable timestamp : string.

(** The five lines of one top match; [i] counts from 1. *)
Definition match_lines (i : nat) (job : ScoredJob) : list string :=
  let title := get_or (sj_job job) "title" (PStr "Unknown Position") in
  let company := get_or (sj_job job) "company" (PStr "Unknown Company") in
  let location := get_or (sj_job job) "location" (PStr "Unknown Location") in
  let score := sj_total_score job in
  let url :=
    get_or (sj_job job) "url" (get_or (sj_job job) "application_url" (PStr "#")) in
  [ pretty i +:+ ". **" +:+ str_of repr title +:+ "** at " +:+ str_of repr company;
    "   - Location: " +:+ str_of repr location;
    "   - Match Score: " +:+ fmt_1f score +:+ "%";
    "   - [Apply Now](" +:+ str_of repr url +:+ ")";
    "" ].

(** [_format_results_summary(scored_listings)] *)
Definition _format_results_summary (scored_listings : list ScoredJob)
  : result string :=
  match scored_listings with
  | [] => Ok "No matching jobs found."
  | _ =>
      let summary_lines :=
        [ "## Job Search Results Summary"; "";
          "Search completed: " +:+ timestamp;
          "Total matches found: " +:+ pretty (length scored_listings);
          "";
          "### Top Matches" ]
        ++ concat (imap (λ i job, match_lines (S i) job) (take 5 scored_listings)) in
      skills_mentioned ←
        Notification._extract_common_skills (sj_job <$> scored_listings);
      let summary_lines :=
        match skills_mentioned with
        | [] => summary_lines
        | _ =>
            summary_lines ++ [ "### Most Requested Skills" ]
            ++ ((λ sc : string * nat,
                   "- " +:+ sc.1 +:+ ": mentioned in " +:+ pretty sc.2 +:+ " jobs")
                <$> take 5 skills_mentioned)
            ++ [ "" ]
        end in
      Ok (join newline summary_lines)
  end.

(** [process(state)] *)
Definition process (state : State) : result State :=
  let scored_listings := default [] (scored_listings state) in
  results_summary ← _format_results_summary scored_listings;
  Ok (set_next_step "complete"
        (set_results_summary results_summary
           (set_notification_sent true state))).
End Format.

End Summary.

(* ===================================================================== *)
(** ** [src/main.py]: input validation, search keywords and results *)
(* ===================================================================== *)

Module Actor.

(** [validate_input(input_data)]: [None] when nothing is raised,
    [Some msg] for [ValueError(msg)]. *)
Definition validate_input (input_data : gmap string pyval) : option string :=
  if negb (truthy (get input_data "apifyApiToken")) then
    Some "Apify API token is required"
  else if negb (truthy (get input_data "openAiApiKey")) then
    Some "OpenAI API key is required"
  else if negb (truthy (get input_data "resumeText")) then
    Some "Resume text is required"
  else None.

(** [s.split(sep)[0]] *)
Definition first_part (sep : ascii) (s : string) : string :=
  match split sep s with
  | part :: _ => part
  | [] => ""
  end.

(** The ["keywords"] of the search parameters of [search_jobs], for a
    desired role that is a string. *)
Definition search_keywords (resume_info : gmap string pyval) : result string :=
  let desired_role := get_or resume_info "desired_role" (PStr "Software Engineer") in
  has_bar ← str_in "|" desired_role;
  simplified_role ←
    (if has_bar : bool then
       match desired_role with
       | PStr s => Ok (strip (first_part "|" s))
       | _ => Raise AttributeError          (* [list.split] *)
       end
     else
       match desired_role with
       | PStr s => Ok s
       | _ => Raise AttributeError          (* [list.lower] *)
       end);
  Ok (lower simplified_role).

(** One entry of the ["results"] array of [format_results]. *)
Record ResultEntry := {
  position : pyval;
  company : pyval;
  location : pyval;
  matchScore : Q;
  matchDetails : Main.Scores;
  applicationUrl : pyval;
  source : string
}.

Definition result_entry (repr : pyval → string) (job : Main.MatchedJob)
  : ResultEntry :=
  let j := Main.mj_job job in
  {| position := py_or (get_or j "title" (PStr "")) (get_or j "name" (PStr ""));
     company := py_or (get_or j "company" (PStr "")) (get_or j "companyName" (PStr ""));
     location := py_or (get_or j "location" (PStr "")) (get_or j "place" (PStr ""));
     matchScore := Main.mj_total_score job;
     matchDetails := Main.mj_match_score job;
     applicationUrl :=
       py_or (py_or (py_or (py_or (py_or (get_or j "applyUrl" (PStr ""))
                                         (get_or j "applicationUrl" (PStr "")))
                                  (get_or j "apply_url" (PStr "")))
                           (get_or j "url" (PStr "")))
                    (get_or j "link" (PStr "")))
             (PStr "");
     source := Main.result_source repr j |}.

(** [[... for job in scored_jobs[:10]]] *)
Definition results (repr : pyval → string) (scored_jobs : list Main.MatchedJob)
  : list ResultEntry :=
  result_entry repr <$> take 10 scored_jobs.

(** The ["results"] array that [format_results] leaves in the state once
    the charge event is pushed: the [except] clause replaces it by the
    empty list when the pass over the descriptions raises. *)
Definition reported_results (repr : pyval → string)
    (scored_jobs : list Main.MatchedJob) : list ResultEntry :=
  match Main.extract_skills scored_jobs [] with
  | Ok _ => results repr scored_jobs
  | Raise _ => []
  end.

End Actor.

(* ===================================================================== *)
(** * Properties *)
(* ===================================================================== *)

(** ** The exception monad *)

Lemma bind_Ok {A B} (a : A) (f : A → result B) : (Ok a ≫= f) = f a.
Proof. reflexivity. Qed.

Lemma bind_Raise {A B} (e : exn) (f : A → result B) : (Raise e ≫= f) = Raise e.
Proof. reflexivity. Qed.

(** ** The descending stable sort *)

Section SortFacts.
Context {A K : Type} (leb : K → K → bool) (key : A → K).
Hypothesis leb_total : ∀ a b, leb a b = true ∨ leb b a = true.
Hypothesis leb_trans :
  ∀ a b c, leb a b = true → leb b c = true → leb a c = true.

(** [x] may stand in front of [y]. *)
Definition desc (x y : A) : Prop := leb (key y) (key x) = true.

(** [x] has the same rank as the key [k]. *)
Definition tied (k : K) (x : A) : bool := leb (key x) k && leb k (key x).

Lemma insert_desc_perm x l : insert_desc leb key x l ≡ₚ x :: l.
Proof.
  induction l as [|y l IH]; simpl; [done|].
  destruct (leb (key y) (key x)); [done|].
  rewrite IH. apply Permutation_swap.
Qed.

Lemma sort_desc_perm l : sort_desc leb key l ≡ₚ l.
Proof.
  induction l as [|x l IH]; simpl; [done|].
  rewrite insert_desc_perm. by rewrite IH.
Qed.

Lemma insert_desc_sorted x l :
  StronglySorted desc l → StronglySorted desc (insert_desc leb key x l).
Proof.
  induction 1 as [|y l Hl IH Hy]; simpl.
  - repeat constructor.
  - destruct (leb (key y) (key x)) eqn:E.
    + constructor; [by constructor|].
      constructor; [exact E|].
      eapply Forall_impl; [exact Hy|].
      intros z Hz. unfold desc in *. eauto.
    + constructor; [exact IH|].
      rewrite insert_desc_perm. constructor; [|exact Hy].
      unfold desc. destruct (leb_total (key x) (key y)); congruence.
Qed.

Lemma sort_desc_sorted l : StronglySorted desc (sort_desc leb key l).
Proof.
  induction l as [|x l IH]; simpl; [constructor|].
  by apply insert_desc_sorted.
Qed.

Lemma insert_desc_tied k x l :
  List.filter (tied k) (insert_desc leb key x l) = List.filter (tied k) (x :: l).
Proof.
  induction l as [|y l IH]; [done|].
  cbn [insert_desc]. destruct (leb (key y) (key x)) eqn:E; [done|].
  cbn [List.filter] in *. rewrite IH.
  destruct (tied k x) eqn:Hx; [|done].
  destruct (tied k y) eqn:Hy; [|done].
  unfold tied in Hx, Hy.
  apply andb_true_iff in Hx as [_ Hx]. apply andb_true_iff in Hy as [Hy _].
  rewrite (leb_trans _ _ _ Hy Hx) in E. discriminate.
Qed.

Lemma sort_desc_stable k l :
  List.filter (tied k) (sort_desc leb key l) = List.filter (tied k) l.
Proof.
  induction l as [|x l IH]; [done|].
  cbn [sort_desc foldr]. rewrite insert_desc_tied.
  cbn [List.filter]. fold (sort_desc leb key l). by rewrite IH.
Qed.
End SortFacts.

Lemma StronglySorted_weaken {A} (R S : A → A → Prop) (l : list A) :
  (∀ x y, R x y → S x y) → StronglySorted R l → StronglySorted S l.
Proof.
  intros HRS. induction 1 as [|x l _ IH Hx]; constructor; [done|].
  eapply Forall_impl; [exact Hx | auto].
Qed.

Lemma Qle_bool_total a b : Qle_bool a b = true ∨ Qle_bool b a = true.
Proof.
  rewrite !Qle_bool_iff.
  destruct (Qlt_le_dec a b) as [H|H]; [left; by apply Qlt_le_weak | by right].
Qed.

Lemma Qle_bool_trans a b c :
  Qle_bool a b = true → Qle_bool b c = true → Qle_bool a c = true.
Proof. rewrite !Qle_bool_iff. apply Qle_trans. Qed.

Lemma Qeq_bool_tied a b : Qeq_bool a b = Qle_bool a b && Qle_bool b a.
Proof.
  apply eq_true_iff_eq.
  rewrite andb_true_iff, Qeq_bool_iff, !Qle_bool_iff. split.
  - intros ->. split; apply Qle_refl.
  - intros [??]. by apply Qle_antisym.
Qed.

(** What the ranking promises of a list [out] produced from [l]: the same
    records, best score first, records of equal score in their order in
    [l]. *)
Definition ranked {A} (score : A → Q) (l out : list A) : Prop :=
  out ≡ₚ l
  ∧ StronglySorted (λ x y, score y <= score x) out
  ∧ ∀ q, List.filter (λ x, Qeq_bool (score x) q) out
         = List.filter (λ x, Qeq_bool (score x) q) l.

Lemma sort_desc_ranked {A} (score : A → Q) (l : list A) :
  ranked score l (sort_desc Qle_bool score l).
Proof.
  split; [|split].
  - apply sort_desc_perm.
  - eapply StronglySorted_weaken;
      [|exact (sort_desc_sorted Qle_bool score Qle_bool_total Qle_bool_trans l)].
    intros x y. unfold desc. by rewrite Qle_bool_iff.
  - intros q.
    rewrite !(filter_ext (λ x, Qeq_bool (score x) q) (tied Qle_bool score q))
      by (intros; apply Qeq_bool_tied).
    apply sort_desc_stable, Qle_bool_trans.
Qed.


(** The two stages end with that sort: what they store is the ranking of
    the records they scored. *)
Lemma score_jobs_ranked chat_completion json_loads charged jobs appended :
  mapM (Main.score_one chat_completion json_loads charged) jobs = Ok appended →
  ranked Main.mj_total_score (concat appended)
         (Main.score_jobs chat_completion json_loads charged jobs).
Proof.
  intros E. unfold Main.score_jobs. rewrite E. apply sort_desc_ranked.
Qed.

Lemma process_ranked fmt_0f repr llm_invoke re_search_json_fence json_loads
    state resume_dict jobs scored :
  resume_data state = Some resume_dict → resume_dict ≠ ∅ →
  job_listings state = Some jobs → jobs ≠ [] →
  mapM (RelevanceScorer.score_one fmt_0f repr llm_invoke re_search_json_fence
          json_loads resume_dict (default ∅ (feedback state))) jobs
    = Ok scored →
  ∃ state',
    RelevanceScorer.process fmt_0f repr llm_invoke re_search_json_fence
                            json_loads state = Ok state'
    ∧ scored_listings state' = Some (RelevanceScorer.sort_scored scored)
    ∧ ranked sj_total_score scored (RelevanceScorer.sort_scored scored).
Proof.
  intros Hr Hne Hj Hjne E. unfold RelevanceScorer.process.
  rewrite Hr, Hj. cbn [from_option RelevanceScorer.no_resume].
  rewrite !bool_decide_eq_false_2 by done. cbn [orb].
  unfold id in *. rewrite E, bind_Ok. eexists. split; [reflexivity|].
  split; [reflexivity | apply sort_desc_ranked].
Qed.

(** ** The coordinator *)

(** The stages in the order in which the coordinator inspects their
    completion flags, as the specification lists them. *)
Definition stage_order (s : State) : list (option bool * string) :=
  [ (resume_parsed s, "resume_parser");
    (jobs_scraped s, "job_scraper");
    (analysis_complete s, "relevance_scorer");
    (feedback_processed s, "feedback_refiner");
    (notification_sent s, "notification") ].

(** The first stage whose flag is unset, ["complete"] when there is none. *)
Definition first_unset_stage (s : State) : string :=
  match List.find (λ p, negb (flag (fst p))) (stage_order s) with
  | Some p => snd p
  | None => "complete"
  end.

(** The decision touches nothing but the cursor. *)
Lemma determine_next_step_frame (s : State) :
  ∃ step, Manager.determine_next_step s = set_next_step step s.
Proof.
  unfold Manager.determine_next_step.
  repeat match goal with |- context [if ?b then _ else _] => destruct b end;
    eauto.
Qed.

(** C5. With at least one entry in the error log the coordinator's next
    step is ["complete"], whatever the stage flags say; with an empty (or
    absent) log it is the first stage, in the order resume_parsed,
    jobs_scraped, analysis_complete, feedback_processed,
    notification_sent, whose flag is unset, and ["complete"] when all are
    set. *)
Theorem coordinator_next_step (s : State) :
  next_step (Manager.determine_next_step s) =
    Some (match default [] (error_log s) with
          | _ :: _ => "complete"
          | [] => first_unset_stage s
          end).
Proof.
  unfold Manager.determine_next_step, Manager.has_errors, first_unset_stage,
    stage_order.
  destruct s as [rd jl sl fb [[|e log]|] [[]|] [[]|] [[]|] [[]|] [[]|] cp ns rs];
    reflexivity.
Qed.

(** ** The detail-scoring stage *)

(** C8.  With no resume — the key absent or the dict empty — or with no
    job listings, the detail-scoring stage returns without raising, and
    what it returns is the state it was given with [scored_listings] set
    to the empty list and [analysis_complete] set to [True]: every other
    entry, the error log among them, is as it was. *)
Theorem process_empty_input
    (fmt_0f : Q → string) (repr : pyval → string)
    (llm_invoke : gmap string pyval → gmap string pyval → gmap string pyval → string)
    (re_search_json_fence : string → option string)
    (json_loads : string → option ScoreResult)
    (state : State) :
  resume_data state = None ∨ resume_data state = Some ∅
  ∨ default [] (job_listings state) = [] →
  RelevanceScorer.process fmt_0f repr llm_invoke re_search_json_fence
                          json_loads state
  = Ok {| resume_data := resume_data state;
          job_listings := job_listings state;
          scored_listings := Some [];
          feedback := feedback state;
          error_log := error_log state;
          resume_parsed := resume_parsed state;
          jobs_scraped := jobs_scraped state;
          analysis_complete := Some true;
          feedback_processed := feedback_processed state;
          notification_sent := notification_sent state;
          current_phase := current_phase state;
          next_step := next_step state;
          results_summary := results_summary state |}.
Proof.
  intros H. unfold RelevanceScorer.process.
  assert (RelevanceScorer.no_resume (resume_data state)
          || bool_decide (default [] (job_listings state) = []) = true) as ->.
  { apply orb_true_iff. destruct H as [-> | [-> | ->]]; [by left | by left | right].
    by apply bool_decide_eq_true. }
  reflexivity.
Qed.

Definition empty_state : State :=
  {| resume_data := None; job_listings := None; scored_listings := None;
     feedback := None; error_log := None; resume_parsed := None;
     jobs_scraped := None; analysis_complete := None;
     feedback_processed := None; notification_sent := None;
     current_phase := None; next_step := None; results_summary := None |}.

Lemma process_empty_input_witness :
  RelevanceScorer.process (λ _, "") (λ _, "") (λ _ _ _, "not json")
                          (λ _, None) (λ _, None) empty_state
  = Ok {| resume_data := None; job_listings := None;
          scored_listings := Some []; feedback := None; error_log := None;
          resume_parsed := None; jobs_scraped := None;
          analysis_complete := Some true; feedback_processed := None;
          notification_sent := None; current_phase := None;
          next_step := None; results_summary := None |}.
Proof.
  apply (process_empty_input (λ _, "") (λ _, "") (λ _ _ _, "not json")
           (λ _, None) (λ _, None) empty_state).
  left. reflexivity.
Defined.

(** C10. In the deterministic position scorer an empty job title or an
    empty desired role gives exactly 0.5.  The test comes first, so two
    empty strings — equal, and each a substring of the other — score 0.5
    and none of 1.0, 0.9 or 0.8. *)
Theorem position_match_empty (job_title desired_role : string) :
  job_title = "" ∨ desired_role = "" →
  RelevanceScorer._score_position_match (PStr job_title) (PStr desired_role)
  = Ok 0.5.
Proof.
  intros [-> | ->]; unfold RelevanceScorer._score_position_match; simpl.
  - reflexivity.
  - by rewrite orb_true_r.
Qed.

Lemma position_match_empty_witness :
  RelevanceScorer._score_position_match (PStr "") (PStr "") = Ok 0.5.
Proof. apply position_match_empty. left. reflexivity. Defined.

(** ** Rounding to one decimal *)

Lemma round_half_even_close (y : Q) :
  y - (1 # 2) <= inject_Z (round_half_even y)
  ∧ inject_Z (round_half_even y) <= y + (1 # 2).
Proof.
  unfold round_half_even.
  pose proof (Qfloor_le y) as Hlo. pose proof (Qlt_floor y) as Hhi.
  rewrite inject_Z_plus in Hhi. change (inject_Z 1) with 1 in Hhi.
  destruct (Qcompare_spec (y - inject_Z (Qfloor y)) (1 # 2)) as [He|Hlt|Hgt].
  - destruct (Z.even (Qfloor y)); rewrite ?inject_Z_plus;
      change (inject_Z 1) with 1; split; lra.
  - split; lra.
  - rewrite inject_Z_plus. change (inject_Z 1) with 1. split; lra.
Qed.

(** A rounded value is within half a tenth of the exact one. *)
Lemma round1_close (x : Q) :
  x - (1 # 20) <= round1 x ∧ round1 x <= x + (1 # 20).
Proof.
  unfold round1, Qdiv. change (/ 10) with (1 # 10).
  destruct (round_half_even_close (x * 10)) as [Hlo Hhi].
  split; lra.
Qed.

Lemma round_half_even_mono_bounds (y : Q) (a b : Z) :
  inject_Z a <= y → y <= inject_Z b →
  (a ≤ round_half_even y ≤ b)%Z.
Proof.
  intros Ha Hb. unfold round_half_even.
  pose proof (Qfloor_le y) as Hlo. pose proof (Qlt_floor y) as Hhi.
  rewrite inject_Z_plus in Hhi. change (inject_Z 1) with 1 in Hhi.
  assert (a ≤ Qfloor y)%Z as Hfa.
  { apply Z.lt_succ_r. rewrite <- Z.add_1_r. rewrite Zlt_Qlt, inject_Z_plus.
    change (inject_Z 1) with 1. lra. }
  assert (Qfloor y ≤ b)%Z as Hfb.
  { rewrite Zle_Qle. lra. }
  destruct (Qcompare_spec (y - inject_Z (Qfloor y)) (1 # 2)) as [He|Hlt|Hgt].
  - destruct (Z.even (Qfloor y)); [lia|].
    assert (Qfloor y < b)%Z; [|lia]. rewrite Zlt_Qlt. lra.
  - lia.
  - assert (Qfloor y < b)%Z; [|lia]. rewrite Zlt_Qlt. lra.
Qed.

(** Rounding keeps a percentage a percentage. *)
Lemma round1_percentage (x : Q) :
  0 <= x → x <= 100 → 0 <= round1 x ∧ round1 x <= 100.
Proof.
  intros H0 H100. unfold round1, Qdiv. change (/ 10) with (1 # 10).
  destruct (round_half_even_mono_bounds (x * 10) 0 1000) as [Hlo Hhi].
  - change (inject_Z 0) with 0. lra.
  - change (inject_Z 1000) with 1000. lra.
  - rewrite Zle_Qle in Hlo, Hhi.
    change (inject_Z 0) with 0 in Hlo. change (inject_Z 1000) with 1000 in Hhi.
    split; lra.
Qed.

(** ** The deterministic fallback and its weights *)

Lemma weight_Some weights k w :
  weights !! k = Some w → RelevanceScorer.weight weights k = Ok w.
Proof. unfold RelevanceScorer.weight. by intros ->. Qed.

(** The configured table has no weight for the first category the manual
    scorer asks for. *)
Lemma configured_position_weight_missing :
  RelevanceScorer.weight Settings.FINAL_SCORING_WEIGHTS "position_match"
  = Raise (KeyError "position_match").
Proof. reflexivity. Qed.

(** Once the three category scorers have answered, the manual scorer
    fails on its first subscript into the configured table. *)
Lemma manual_score_job_key_error fmt_0f repr job resume_data preferences pm sm lm :
  RelevanceScorer._score_position_match
    (get_or job "title" (PStr "")) (get_or resume_data "desired_role" (PStr ""))
    = Ok pm →
  RelevanceScorer._score_skills_match
    (get_or job "required_skills" (PList [])) (get_or resume_data "skills" (PList []))
    = Ok sm →
  RelevanceScorer._score_location_match
    (get_or job "location" (PStr ""))
    (get_or resume_data "location_preference" (PStr ""))
    (get_or preferences "work_mode_preference" (PStr "Any")) = Ok lm →
  RelevanceScorer._manual_score_job fmt_0f repr job resume_data preferences
  = Raise (KeyError "position_match").
Proof.
  intros Hp Hs Hl.
  unfold RelevanceScorer._manual_score_job, RelevanceScorer._manual_score_job_with.
  rewrite Hp, bind_Ok, Hs, bind_Ok, Hl, bind_Ok.
  by rewrite configured_position_weight_missing.
Qed.

Lemma manual_score_job_raises fmt_0f repr job resume_data preferences :
  ∃ e, RelevanceScorer._manual_score_job fmt_0f repr job resume_data preferences
       = Raise e.
Proof.
  destruct (RelevanceScorer._score_position_match
              (get_or job "title" (PStr ""))
              (get_or resume_data "desired_role" (PStr ""))) as [pm|e] eqn:Hp.
  2: { exists e. unfold RelevanceScorer._manual_score_job,
         RelevanceScorer._manual_score_job_with. by rewrite Hp. }
  destruct (RelevanceScorer._score_skills_match
              (get_or job "required_skills" (PList []))
              (get_or resume_data "skills" (PList []))) as [sm|e] eqn:Hs.
  2: { exists e. unfold RelevanceScorer._manual_score_job,
         RelevanceScorer._manual_score_job_with. by rewrite Hp, bind_Ok, Hs. }
  destruct (RelevanceScorer._score_location_match
              (get_or job "location" (PStr ""))
              (get_or resume_data "location_preference" (PStr ""))
              (get_or preferences "work_mode_preference" (PStr "Any")))
    as [lm|e] eqn:Hl.
  2: { exists e. unfold RelevanceScorer._manual_score_job,
         RelevanceScorer._manual_score_job_with.
       by rewrite Hp, bind_Ok, Hs, bind_Ok, Hl. }
  eexists. by eapply manual_score_job_key_error.
Qed.

(** C1 (the code departs from it).  With a reasoning service whose every
    answer fails to parse, the per-job scoring call reaches the manual
    scorer, and the manual scorer raises for every job, profile and
    preferences: no result is returned at all. *)
Theorem score_job_fallback_raises
    (fmt_0f : Q → string) (repr : pyval → string)
    (llm_invoke : gmap string pyval → gmap string pyval → gmap string pyval → string)
    (re_search_json_fence : string → option string)
    (job resume_data preferences : gmap string pyval) :
  ∃ e, RelevanceScorer._score_job fmt_0f repr llm_invoke re_search_json_fence
         (λ _, None) job resume_data preferences = Raise e.
Proof.
  unfold RelevanceScorer._score_job.
  destruct (re_search_json_fence _); apply manual_score_job_raises.
Qed.

(** The end-to-end example of the specification, as records. *)
Definition profile_example : gmap string pyval :=
  list_to_map [ ("desired_role", PStr "Software Engineer");
                ("skills", PList ["Python"; "SQL"]);
                ("location_preference", PStr "New York, NY") ].

Definition job_a : gmap string pyval :=
  list_to_map [ ("title", PStr "Software Engineer"); ("company", PStr "Acme");
                ("location", PStr "New York, NY");
                ("required_skills", PList ["Python"]) ].

Definition job_b : gmap string pyval :=
  list_to_map [ ("title", PStr "Barista"); ("company", PStr "Cafe");
                ("location", PStr "Remote"); ("required_skills", PList []) ].

Example score_job_a_key_error :
  RelevanceScorer._score_job (λ _, "") (λ _, "") (λ _ _ _, "I cannot answer")
    (λ _, None) (λ _, None) job_a profile_example ∅
  = Raise (KeyError "position_match").
Proof. vm_compute. reflexivity. Qed.

(** The weights announced in the agent's system prompt (25%, 30%, 15%,
    15%, 10%, 5%).  Even with this table the constants 70, 65 and 60 enter
    the weighted sum unscaled, and the total leaves the range 0..100. *)
Definition prompt_weights : gmap string Q :=
  list_to_map [ ("position_match", 0.25); ("skills_experience", 0.30);
                ("location", 0.15); ("company_match", 0.15);
                ("salary_match", 0.10); ("benefits", 0.05) ].

Example manual_score_job_a_prompt_weights :
  total_score <$>
    RelevanceScorer._manual_score_job_with (λ _, "") (λ _, "") prompt_weights
      job_a profile_example ∅
  = Ok (Some 2070.0).
Proof. vm_compute. reflexivity. Qed.

(** The six categories of the detail scorer, as the manual scorer and the
    specification name them. *)
Definition detail_categories : list string :=
  [ "position_match"; "skills_experience"; "location"; "company_match";
    "salary_match"; "benefits" ].

(** A table for the six categories whose weights sum to 3. *)
Definition halves : gmap string Q :=
  list_to_map ((λ k, (k, 0.5)) <$> detail_categories).

(** C2, refuted as stated.  The configured table is not keyed by the six
    categories, and a table whose weights do not sum to 1.0 is accepted:
    the scorer returns a result with it. *)
Lemma detail_weights_counterexample :
  dom Settings.FINAL_SCORING_WEIGHTS ≠ list_to_set detail_categories
  ∧ ¬ Settings.weights_sum halves == 1
  ∧ is_ok (RelevanceScorer._manual_score_job_with (λ _, "") (λ _, "") halves
             job_a profile_example ∅) = true.
Proof.
  split; [|split].
  - intros H.
    assert ("position_match" ∈ dom Settings.FINAL_SCORING_WEIGHTS) as Hin.
    { rewrite H. unfold detail_categories. set_solver. }
    apply elem_of_dom in Hin as [w Hw]. vm_compute in Hw. discriminate.
  - vm_compute. discriminate.
  - vm_compute. reflexivity.
Qed.

(** C2, as the code has it.  The configured weights sum to 1.0, and no
    table is validated: whenever a table holds the six weights the manual
    scorer reads and the three category scorers answer, the manual scorer
    returns a result with a total, and the sum of the weights plays no
    part.  For weights between 0 and 1 that total is within a tenth of
    100 times the weighted sum of the six category scores. *)
Theorem detail_weights_sum_and_use
    (fmt_0f : Q → string) (repr : pyval → string) (weights : gmap string Q)
    (job resume_data preferences : gmap string pyval)
    (pm sm lm w_position w_skills w_location w_company w_salary w_benefits : Q) :
  weights !! "position_match" = Some w_position →
  weights !! "skills_experience" = Some w_skills →
  weights !! "location" = Some w_location →
  weights !! "company_match" = Some w_company →
  weights !! "salary_match" = Some w_salary →
  weights !! "benefits" = Some w_benefits →
  RelevanceScorer._score_position_match
    (get_or job "title" (PStr "")) (get_or resume_data "desired_role" (PStr ""))
    = Ok pm →
  RelevanceScorer._score_skills_match
    (get_or job "required_skills" (PList [])) (get_or resume_data "skills" (PList []))
    = Ok sm →
  RelevanceScorer._score_location_match
    (get_or job "location" (PStr ""))
    (get_or resume_data "location_preference" (PStr ""))
    (get_or preferences "work_mode_preference" (PStr "Any")) = Ok lm →
  Settings.weights_sum Settings.FINAL_SCORING_WEIGHTS == 1
  ∧ ∃ r t,
      RelevanceScorer._manual_score_job_with fmt_0f repr weights
        job resume_data preferences = Ok r
      ∧ total_score r = Some t
      ∧ (Forall (λ w, 0 <= w ∧ w <= 1)
           [ w_position; w_skills; w_location; w_company; w_salary; w_benefits ] →
         let weighted := pm * w_position + sm * w_skills + lm * w_location
                         + 70 * w_company + 65 * w_salary + 60 * w_benefits in
         weighted * 100 - 0.1 < t ∧ t < weighted * 100 + 0.1).
Proof.
  intros H1 H2 H3 H4 H5 H6 Hp Hs Hl. split; [vm_compute; reflexivity|].
  unfold RelevanceScorer._manual_score_job_with.
  rewrite Hp, bind_Ok, Hs, bind_Ok, Hl, bind_Ok.
  rewrite (weight_Some _ _ _ H1), bind_Ok, (weight_Some _ _ _ H2), bind_Ok,
    (weight_Some _ _ _ H3), bind_Ok, (weight_Some _ _ _ H4), bind_Ok,
    (weight_Some _ _ _ H5), bind_Ok, (weight_Some _ _ _ H6), bind_Ok.
  eexists _, _. split; [reflexivity|]. split; [reflexivity|].
  intros _. cbv zeta.
  destruct (round1_close
              ((pm * w_position + sm * w_skills + lm * w_location
                + 70 * w_company + 65 * w_salary + 60 * w_benefits) * 100))
    as [Hlo Hhi].
  split; lra.
Qed.

Lemma detail_weights_sum_and_use_witness :
  Settings.weights_sum Settings.FINAL_SCORING_WEIGHTS == 1
  ∧ ∃ r t,
      RelevanceScorer._manual_score_job_with (λ _, "") (λ _, "") halves
        job_a profile_example ∅ = Ok r
      ∧ total_score r = Some t
      ∧ (Forall (λ w, 0 <= w ∧ w <= 1) [ 0.5; 0.5; 0.5; 0.5; 0.5; 0.5 ] →
         let weighted := 1.0 * 0.5 + 1.0 * 0.5 + 1.0 * 0.5
                         + 70 * 0.5 + 65 * 0.5 + 60 * 0.5 in
         weighted * 100 - 0.1 < t ∧ t < weighted * 100 + 0.1).
Proof.
  apply (detail_weights_sum_and_use (λ _, "") (λ _, "") halves
           job_a profile_example ∅ 1.0 1.0 1.0 0.5 0.5 0.5 0.5 0.5 0.5);
    vm_compute; reflexivity.
Defined.

(** ** Normalisation in the actor workflow *)

(** The fields of a standardized record, resolved from a raw record in the
    order [standardize_job_data] tries its keys. *)
Definition resolved_title (job : gmap string pyval) : pyval :=
  py_or (py_or (get job "title") (get job "positionName"))
        (get_or job "name" (PStr "")).
Definition resolved_company (job : gmap string pyval) : pyval :=
  py_or (get job "company") (get_or job "companyName" (PStr "")).
Definition resolved_location (job : gmap string pyval) : pyval :=
  py_or (get job "location") (get_or job "place" (PStr "")).
Definition resolved_description (job : gmap string pyval) : pyval :=
  py_or (get job "description") (get_or job "jobDescription" (PStr "")).
Definition resolved_url (job : gmap string pyval) : pyval :=
  py_or (get job "url") (get_or job "applicationLink" (PStr "")).

Definition source_tag (is_linkedin : bool) : string :=
  if is_linkedin then "LinkedIn" else "Indeed".

Definition standardized_record (title company location description url : pyval)
    (source : string) : gmap string pyval :=
  list_to_map
    [ ("title", title); ("company", company); ("location", location);
      ("description", description); ("url", url); ("source", PStr source) ].

Lemma standardize_job_data_unfold job :
  Main.standardize_job_data job =
    match str_in "linkedin.com" (get_or job "url" (PStr "")) with
    | Raise _ => None
    | Ok b =>
        if negb (truthy (resolved_title job)) || negb (truthy (resolved_company job))
        then None
        else Some (standardized_record (resolved_title job) (resolved_company job)
                     (resolved_location job) (resolved_description job)
                     (resolved_url job) (source_tag b))
    end.
Proof. reflexivity. Qed.

Lemma standardize_job_data_Some job s :
  Main.standardize_job_data job = Some s ↔
  ∃ b, str_in "linkedin.com" (get_or job "url" (PStr "")) = Ok b
       ∧ truthy (resolved_title job) = true
       ∧ truthy (resolved_company job) = true
       ∧ s = standardized_record (resolved_title job) (resolved_company job)
               (resolved_location job) (resolved_description job)
               (resolved_url job) (source_tag b).
Proof.
  rewrite standardize_job_data_unfold. split.
  - destruct (str_in _ _) as [b|]; [|done].
    destruct (truthy (resolved_title job)), (truthy (resolved_company job));
      simpl; [|done..].
    intros [= <-]. eauto.
  - intros (b & -> & -> & -> & ->). reflexivity.
Qed.

Lemma standardize_job_data_incomplete job :
  truthy (resolved_title job) = false ∨ truthy (resolved_company job) = false →
  Main.standardize_job_data job = None.
Proof.
  rewrite standardize_job_data_unfold.
  destruct (str_in _ _); [|done].
  intros [-> | ->]; [done|]. by rewrite orb_true_r.
Qed.

Lemma standardized_has_title_and_company job s :
  Main.standardize_job_data job = Some s →
  truthy (get s "title") = true ∧ truthy (get s "company") = true.
Proof.
  intros (b & _ & Ht & Hc & ->)%standardize_job_data_Some.
  split; [exact Ht | exact Hc].
Qed.

(** The loop appends to what it has, keeps no more records than it reads,
    and everything it appends is the standardization of a record read. *)
Lemma standardize_loop_spec all_jobs acc :
  ∃ kept,
    Main.standardize_loop all_jobs acc = (acc ++ kept)%list
    ∧ (length kept ≤ length all_jobs)%nat
    ∧ ∀ s, s ∈ kept →
        ∃ job, job ∈ all_jobs ∧ Main.standardize_job_data job = Some s.
Proof.
  revert acc. induction all_jobs as [|job rest IH]; intros acc; cbn [Main.standardize_loop].
  - exists []. rewrite app_nil_r. split; [done|]. split; [done|].
    intros s Hs. by apply elem_of_nil in Hs.
  - destruct (_ <=? _)%nat.
    { exists []. rewrite app_nil_r. split; [done|]. split; [simpl; lia|].
      intros s Hs. by apply elem_of_nil in Hs. }
    destruct (Main.standardize_job_data job) as [s0|] eqn:E.
    + destruct (IH (acc ++ [s0])%list) as (kept & -> & Hlen & Hin).
      exists (s0 :: kept). rewrite <- app_assoc. split; [done|].
      split; [simpl; lia|].
      intros s [->|Hs]%elem_of_cons.
      * exists job. split; [left|done].
      * destruct (Hin s Hs) as (j & ? & ?). exists j. split; [by right|done].
    + destruct (IH acc) as (kept & -> & Hlen & Hin).
      exists kept. split; [done|]. split; [simpl; lia|].
      intros s Hs. destruct (Hin s Hs) as (j & ? & ?).
      exists j. split; [by right|done].
Qed.

Lemma standardize_all_origin all_jobs s :
  s ∈ Main.standardize_all all_jobs →
  ∃ job, job ∈ all_jobs ∧ Main.standardize_job_data job = Some s.
Proof.
  unfold Main.standardize_all.
  destruct (standardize_loop_spec all_jobs []) as (kept & -> & _ & Hin).
  exact (Hin s).
Qed.

Lemma standardize_all_length all_jobs :
  (length (Main.standardize_all all_jobs) ≤ length all_jobs)%nat.
Proof.
  unfold Main.standardize_all.
  by destruct (standardize_loop_spec all_jobs []) as (kept & -> & ? & _).
Qed.

(** Scoring adds to the records it is given and invents none. *)
Lemma mapM_result_Ok {A B} (f : A → result B) (l : list A) (k : list B) :
  mapM f l = Ok k → Forall2 (λ a b, f a = Ok b) l k.
Proof.
  revert k. induction l as [|a l IH]; intros k; cbn [mapM].
  - intros [= <-]. constructor.
  - destruct (f a) as [b|] eqn:E; [|done]. rewrite bind_Ok.
    destruct (mapM f l) as [k'|]; [|done]. rewrite bind_Ok.
    intros [= <-]. constructor; [done|]. by apply IH.
Qed.

Lemma elem_of_concat {A} (x : A) (ls : list (list A)) :
  x ∈ concat ls ↔ ∃ l, x ∈ l ∧ l ∈ ls.
Proof.
  induction ls as [|l0 ls IH]; cbn [concat].
  - split; [by intros ?%elem_of_nil | by intros (l & _ & ?%elem_of_nil)].
  - rewrite elem_of_app, IH. split.
    + intros [H | (l & Hx & Hl)].
      * exists l0. split; [done | left].
      * exists l. split; [done | by right].
    + intros (l & Hx & [-> | Hl]%elem_of_cons); [by left|].
      right. by exists l.
Qed.

Lemma try_score_job json_loads job content mj :
  Main.try_score json_loads job content = Ok mj → Main.mj_job mj = job.
Proof.
  unfold Main.try_score. destruct (json_loads _) as [scores|]; [|done].
  destruct (Main.ensure_total scores); rewrite ?bind_Ok, ?bind_Raise;
    by intros [= <-].
Qed.

(** The records that one turn of the loop appends: one or two, all for
    the job of that turn. *)
Lemma score_one_job chat_completion json_loads charged job appended :
  Main.score_one chat_completion json_loads charged job = Ok appended →
  Main.mj_job <$> appended
  = if bool_decide (length appended = 1%nat) then [job] else [job; job].
Proof.
  unfold Main.score_one.
  destruct (chat_completion job) as [content|]; [|done]. rewrite bind_Ok.
  destruct (Main.try_score json_loads job content) as [mj|] eqn:E.
  - apply try_score_job in E.
    destruct (charged job); intros [= <-]; cbn; by rewrite E.
  - by intros [= <-].
Qed.

Lemma score_one_jobs chat_completion json_loads charged job appended mj :
  Main.score_one chat_completion json_loads charged job = Ok appended →
  mj ∈ appended → Main.mj_job mj = job.
Proof.
  intros E%score_one_job Hmj.
  apply (list_elem_of_fmap_2 Main.mj_job) in Hmj. rewrite E in Hmj.
  destruct (bool_decide _).
  - by apply list_elem_of_singleton in Hmj.
  - apply elem_of_cons in Hmj as [Hmj|Hmj]; [done|].
    by apply list_elem_of_singleton in Hmj.
Qed.

Lemma score_jobs_jobs chat_completion json_loads charged jobs mj :
  mj ∈ Main.score_jobs chat_completion json_loads charged jobs →
  Main.mj_job mj ∈ jobs.
Proof.
  unfold Main.score_jobs.
  destruct (mapM _ jobs) as [appended|] eqn:E; [|by intros ?%elem_of_nil].
  unfold Main.sort_scored. rewrite sort_desc_perm.
  apply mapM_result_Ok in E. intros (l & Hmj & Hl)%elem_of_concat.
  apply list_elem_of_lookup in Hl as [i Hi].
  destruct (Forall2_lookup_r _ _ _ _ _ E Hi) as (job & Hjob & Hsc).
  rewrite (score_one_jobs _ _ _ _ _ _ Hsc Hmj). by eapply list_elem_of_lookup_2.
Qed.

(** ** Normalisation in the scraper agent *)

Lemma mapM_result_length {A B} (f : A → result B) (l : list A) (k : list B) :
  mapM f l = Ok k → length k = length l.
Proof. intros H%mapM_result_Ok. symmetry. by eapply Forall2_length. Qed.

(** The scraper's normalizer answers with a record of seven fields
    whenever the value under [url] can be searched. *)
Lemma normalize_job_data_Ok hash_str fromisoformat now job s :
  JobScraper._normalize_job_data hash_str fromisoformat now job = Ok s →
  ∃ b posted,
    str_in "linkedin" (get_or job "url" (PStr "")) = Ok b
    ∧ s = <["posted_date" := PDate posted]>
            (list_to_map
               [ ("job_id", get_or job "id"
                              (get_or job "jobId" (PStr (hash_str job))));
                 ("title", get_or job "title"
                             (get_or job "name" (PStr "Unknown Position")));
                 ("company", get_or job "company"
                               (get_or job "companyName" (PStr "Unknown Company")));
                 ("location", get_or job "location"
                                (get_or job "place" (PStr "Unknown Location")));
                 ("url", get_or job "url"
                           (get_or job "link"
                              (get_or job "applicationLink" (PStr ""))));
                 ("source", PStr (source_tag b)) ]).
Proof.
  unfold JobScraper._normalize_job_data.
  destruct (str_in _ _) as [b|]; [|done]. rewrite bind_Ok.
  intros H. exists b.
  destruct (get_or job "postedDate" _) as [|d| | |];
    try (injection H as <-; eexists; split; reflexivity).
  destruct (fromisoformat _); injection H as <-; eexists; split; reflexivity.
Qed.

(** C3, refuted for the scraper agent.  A raw record whose title is
    present and empty is normalized, not excluded: the normalized list
    holds a record with an empty title.  (The two library stubs play no
    part in the title.) *)
Lemma scraper_keeps_empty_title :
  ∃ s,
    JobScraper.normalize_all (λ _, "0") (λ _, None) 0
      [ list_to_map [ ("title", PStr ""); ("company", PStr "Acme") ] ] = Ok [s]
    ∧ get s "title" = PStr "".
Proof. eexists. split; vm_compute; reflexivity. Qed.

(** C3, as the code has it.  In the actor workflow a raw record whose
    resolved title or company is empty is not standardized; the
    standardized list is no longer than the input; each of its records
    has a non-empty title and company and is the standardization of an
    input record; and every scored and ranked record is one of them.  The
    scraper agent's normalizer excludes nothing: it returns one record
    for each record it is given. *)
Theorem standardize_excludes_incomplete
    (chat_completion : gmap string pyval → result string)
    (json_loads : string → option Main.Scores)
    (charged : gmap string pyval → bool)
    (hash_str : gmap string pyval → string)
    (fromisoformat : string → option Z) (now : Z)
    (all_jobs : list (gmap string pyval)) :
  let jobs := Main.standardize_all all_jobs in
  (∀ job,
     truthy (resolved_title job) = false ∨ truthy (resolved_company job) = false →
     Main.standardize_job_data job = None)
  ∧ (length jobs ≤ length all_jobs)%nat
  ∧ (∀ s, s ∈ jobs →
       truthy (get s "title") = true ∧ truthy (get s "company") = true
       ∧ ∃ job, job ∈ all_jobs ∧ Main.standardize_job_data job = Some s)
  ∧ (∀ mj, mj ∈ Main.score_jobs chat_completion json_loads charged jobs →
       Main.mj_job mj ∈ jobs)
  ∧ (∀ normalized,
       JobScraper.normalize_all hash_str fromisoformat now all_jobs
         = Ok normalized →
       length normalized = length all_jobs).
Proof.
  intros jobs. split; [apply standardize_job_data_incomplete|].
  split; [apply standardize_all_length|].
  split.
  { intros s Hs. destruct (standardize_all_origin _ _ Hs) as (job & Hjob & E).
    destruct (standardized_has_title_and_company _ _ E). eauto. }
  split; [intros mj; apply score_jobs_jobs|].
  intros normalized. apply mapM_result_length.
Qed.

(** ** Normalising what is already normalized *)

Lemma py_or_truthy a b : truthy a = true → py_or a b = a.
Proof. unfold py_or. by intros ->. Qed.

Lemma py_or_default_idem a d : py_or (py_or a d) d = py_or a d.
Proof.
  unfold py_or. destruct (truthy a) eqn:Ha; [by rewrite Ha|].
  by destruct (truthy d).
Qed.

Lemma str_in_py_or_default u b :
  str_in "linkedin.com" u = Ok b →
  str_in "linkedin.com" (py_or u (PStr "")) = Ok b.
Proof.
  destruct u as [|s|x|t|[|y l]]; try done.
  destruct s; [done|]. by rewrite py_or_truthy.
Qed.

(** Standardizing a standardized record. *)
Lemma standardize_record t c l d u src :
  Main.standardize_job_data (standardized_record t c l d u src) =
    match str_in "linkedin.com" u with
    | Raise _ => None
    | Ok b =>
        if negb (truthy (py_or (py_or t PNone) (PStr "")))
           || negb (truthy (py_or c (PStr "")))
        then None
        else Some (standardized_record
                     (py_or (py_or t PNone) (PStr "")) (py_or c (PStr ""))
                     (py_or l (PStr "")) (py_or d (PStr ""))
                     (py_or u (PStr "")) (source_tag b))
    end.
Proof. reflexivity. Qed.

Lemma restandardize t c l d u src s2 :
  truthy t = true → truthy c = true →
  Main.standardize_job_data (standardized_record t c l d u src) = Some s2 →
  ∃ b, str_in "linkedin.com" u = Ok b
       ∧ s2 = standardized_record t c (py_or l (PStr "")) (py_or d (PStr ""))
                (py_or u (PStr "")) (source_tag b).
Proof.
  intros Ht Hc. rewrite standardize_record.
  destruct (str_in _ u) as [b|]; [|done].
  rewrite (py_or_truthy t PNone Ht), (py_or_truthy t _ Ht), (py_or_truthy c _ Hc),
    Ht, Hc.
  intros [= <-]. eauto.
Qed.

(** A record that has been through the normalizer twice is a fixed point
    of it. *)
Lemma standardize_twice_fixed job s1 s2 :
  Main.standardize_job_data job = Some s1 →
  Main.standardize_job_data s1 = Some s2 →
  Main.standardize_job_data s2 = Some s2.
Proof.
  intros (b1 & _ & Ht & Hc & ->)%standardize_job_data_Some H2.
  apply restandardize in H2 as (b & Hb & ->); [|done..].
  rewrite standardize_record, (str_in_py_or_default _ _ Hb).
  rewrite (py_or_truthy _ PNone Ht), (py_or_truthy _ (PStr "") Ht),
    (py_or_truthy _ _ Hc), Ht, Hc, !py_or_default_idem.
  reflexivity.
Qed.

Lemma standardize_loop_bound all_jobs acc :
  (length acc ≤ Main.JOBS_PER_SOURCE * 2)%nat →
  (length (Main.standardize_loop all_jobs acc) ≤ Main.JOBS_PER_SOURCE * 2)%nat.
Proof.
  revert acc. induction all_jobs as [|job rest IH]; intros acc Hacc;
    cbn [Main.standardize_loop]; [done|].
  destruct (_ <=? _)%nat eqn:E; [done|].
  apply Nat.leb_gt in E.
  destruct (Main.standardize_job_data job); [|by apply IH].
  apply IH. rewrite length_app. unfold Main.JOBS_PER_SOURCE in *. simpl. lia.
Qed.

Lemma standardize_loop_fixed l acc :
  Forall (λ s, Main.standardize_job_data s = Some s) l →
  (length acc + length l ≤ Main.JOBS_PER_SOURCE * 2)%nat →
  Main.standardize_loop l acc = (acc ++ l)%list.
Proof.
  intros Hl. revert acc. induction Hl as [|s l Hs _ IH]; intros acc Hlen;
    cbn [Main.standardize_loop]; [by rewrite app_nil_r|].
  unfold Main.JOBS_PER_SOURCE in *. simpl in Hlen.
  destruct (_ <=? _)%nat eqn:E; [apply Nat.leb_le in E; lia|].
  rewrite Hs, IH, <- app_assoc; [done|]. rewrite length_app. simpl. lia.
Qed.

Lemma standardize_all_fixed l :
  Forall (λ s, Main.standardize_job_data s = Some s) l →
  (length l ≤ Main.JOBS_PER_SOURCE * 2)%nat →
  Main.standardize_all l = l.
Proof. intros. unfold Main.standardize_all. by rewrite standardize_loop_fixed. Qed.

(** A raw record that carries its link under [applicationLink] only. *)
Definition raw_with_application_link : gmap string pyval :=
  list_to_map [ ("title", PStr "Data Engineer"); ("company", PStr "Acme");
                ("applicationLink", PStr "https://www.linkedin.com/jobs/view/1") ].

(** C7, refuted as stated.  The list [once] is an output of the
    normalizer, and normalizing it again changes the source of its
    record from Indeed to LinkedIn. *)
Lemma renormalize_changes_source :
  let once := Main.standardize_all [raw_with_application_link] in
  (λ s, get s "source") <$> once = [PStr "Indeed"]
  ∧ (λ s, get s "source") <$> Main.standardize_all once = [PStr "LinkedIn"]
  ∧ Main.standardize_all once ≠ once.
Proof.
  intros once. split; [vm_compute; reflexivity|].
  split; [vm_compute; reflexivity|].
  intros H. apply (f_equal (fmap (λ s, get s "source"))) in H.
  vm_compute in H. discriminate.
Qed.

(** A raw record whose only link is an [applicationLink] without a
    value. *)
Definition raw_with_null_link : gmap string pyval :=
  list_to_map [ ("title", PStr "Data Engineer"); ("company", PStr "Acme");
                ("applicationLink", PNone) ].

(** The first pass keeps that record, with a url that is [None]; the
    second pass cannot search the url and drops the record. *)
Lemma renormalize_drops_record :
  let once := Main.standardize_all [raw_with_null_link] in
  (λ s, get s "url") <$> once = [PNone]
  ∧ Main.standardize_all once = [].
Proof. intros once. split; vm_compute; reflexivity. Qed.

(** C7, as the code has it.  Normalization is stable from its second
    application on: a list that has been normalized twice is returned
    unchanged by the normalizer.  Re-normalizing a normalized record
    drops it when its url cannot be searched for a substring (it is
    [None], a number or a date); otherwise it keeps the record, with its
    title and company, with its location, description and url unless
    they are empty values (which become the empty string), and with its
    source recomputed from the url it carries. *)
Theorem renormalize_stable_after_two_passes (all_jobs : list (gmap string pyval)) :
  let once := Main.standardize_all all_jobs in
  let twice := Main.standardize_all once in
  Main.standardize_all twice = twice
  ∧ ∀ s1, s1 ∈ once →
      match get s1 "url" with
      | PNone | PNum _ | PDate _ => Main.standardize_job_data s1 = None
      | PStr _ | PList _ =>
          ∃ s2 b,
            Main.standardize_job_data s1 = Some s2
            ∧ get s2 "title" = get s1 "title"
            ∧ get s2 "company" = get s1 "company"
            ∧ get s2 "location" = py_or (get s1 "location") (PStr "")
            ∧ get s2 "description" = py_or (get s1 "description") (PStr "")
            ∧ get s2 "url" = py_or (get s1 "url") (PStr "")
            ∧ str_in "linkedin.com" (get s1 "url") = Ok b
            ∧ get s2 "source" = PStr (source_tag b)
      end.
Proof.
  intros once twice. split.
  - apply standardize_all_fixed.
    + apply Forall_forall. intros s2 Hs2.
      destruct (standardize_all_origin _ _ Hs2) as (s1 & Hs1 & E2).
      destruct (standardize_all_origin _ _ Hs1) as (job & _ & E1).
      by eapply standardize_twice_fixed.
    + apply standardize_loop_bound. simpl. lia.
  - intros s1 Hs1.
    destruct (standardize_all_origin _ _ Hs1) as (job & _ & E1).
    apply standardize_job_data_Some in E1 as (b1 & _ & Ht & Hc & ->).
    rewrite standardize_record.
    change (get (standardized_record ?t ?c ?l ?d ?u ?src) "url") with u.
    rewrite (py_or_truthy _ PNone Ht), (py_or_truthy _ (PStr "") Ht),
      (py_or_truthy _ _ Hc), Ht, Hc. cbn [negb orb].
    destruct (resolved_url job) as [|u|x|t|l]; cbn [str_in]; try reflexivity;
      eexists _, _; (split; [reflexivity|]); repeat split; reflexivity.
Qed.

(** The scraper agent's normalizer, applied to its own output, keeps the
    title, company, location and url, and derives the identifier and
    the posting date anew: from the hash of the record it is given and
    from the clock. *)
Lemma renormalize_scraper hash_str fromisoformat now now' job s1 s2 :
  JobScraper._normalize_job_data hash_str fromisoformat now job = Ok s1 →
  JobScraper._normalize_job_data hash_str fromisoformat now' s1 = Ok s2 →
  get s2 "title" = get s1 "title"
  ∧ get s2 "company" = get s1 "company"
  ∧ get s2 "location" = get s1 "location"
  ∧ get s2 "url" = get s1 "url"
  ∧ get s2 "job_id" = PStr (hash_str s1)
  ∧ get s2 "posted_date" = PDate (now' - JobScraper.days 7).
Proof.
  intros (b1 & p1 & _ & ->)%normalize_job_data_Ok.
  unfold JobScraper._normalize_job_data.
  destruct (str_in _ _) as [b|]; [|done]. rewrite bind_Ok.
  intros [= <-]. repeat split; reflexivity.
Qed.

(** ** Source attribution *)

(** The attribution as the specification words it: LinkedIn for a url
    with ["linkedin.com"] in it, the caller's tag otherwise. *)
Definition source_per_spec (tag url : string) : string :=
  if contains "linkedin.com" url then "LinkedIn" else tag.

(** A record found by the LinkedIn search, with a short link. *)
Definition raw_short_link : gmap string pyval :=
  list_to_map [ ("title", PStr "Data Engineer"); ("company", PStr "Acme");
                ("url", PStr "https://lnkd.in/g7xk") ].

(** A record whose url has ["linkedin"] in it, not ["linkedin.com"]. *)
Definition raw_other_host : gmap string pyval :=
  list_to_map [ ("title", PStr "Data Engineer"); ("company", PStr "Acme");
                ("url", PStr "https://jobs.linkedin-partners.org/7") ].

(** C9, refuted as stated.  No tag reaches the normalizer: a record of
    the LinkedIn search whose url lacks ["linkedin.com"] is attributed to
    Indeed, where the caller's tag would be LinkedIn; and the scraper
    agent attributes LinkedIn to a url without ["linkedin.com"]. *)
Lemma source_attribution_counterexample :
  (s ← Main.standardize_job_data raw_short_link; s !! "source")
    = Some (PStr "Indeed")
  ∧ source_per_spec "LinkedIn" "https://lnkd.in/g7xk" = "LinkedIn"
  ∧ contains "linkedin.com" "https://jobs.linkedin-partners.org/7" = false
  ∧ ∃ s, JobScraper._normalize_job_data (λ _, "0") (λ _, None) 0 raw_other_host
           = Ok s
         ∧ s !! "source" = Some (PStr "LinkedIn").
Proof.
  split; [vm_compute; reflexivity|]. split; [vm_compute; reflexivity|].
  split; [vm_compute; reflexivity|]. eexists. split; vm_compute; reflexivity.
Qed.

(** C9, as the code has it.  For a raw record whose [url] entry is the
    string [u] (the empty string when the key is absent):
    [standardize_job_data] attributes LinkedIn exactly when [u] contains
    ["linkedin.com"] and the fixed tag Indeed otherwise; the scraper
    agent's normalizer does the same on the substring ["linkedin"]; the
    result entries of [format_results] are attributed to LinkedIn exactly
    when the url contains ["linkedin.com"] or ["lnkd.in"].  No tag is
    passed in by a caller. *)
Theorem source_attribution
    (hash_str : gmap string pyval → string) (fromisoformat : string → option Z)
    (now : Z) (repr : pyval → string)
    (job : gmap string pyval) (u : string) :
  get_or job "url" (PStr "") = PStr u →
  (∀ s, Main.standardize_job_data job = Some s →
        s !! "source" = Some (PStr (if contains "linkedin.com" u
                                    then "LinkedIn" else "Indeed")))
  ∧ (∃ s, JobScraper._normalize_job_data hash_str fromisoformat now job = Ok s
          ∧ s !! "source" = Some (PStr (if contains "linkedin" u
                                        then "LinkedIn" else "Indeed")))
  ∧ Main.result_source repr job =
      (if contains "linkedin.com" u || contains "lnkd.in" u
       then "LinkedIn" else "Indeed").
Proof.
  intros Hu. split; [|split].
  - intros s (b & Hb & _ & _ & ->)%standardize_job_data_Some.
    rewrite Hu in Hb. injection Hb as <-. reflexivity.
  - unfold JobScraper._normalize_job_data. rewrite Hu. cbn [str_in]. rewrite bind_Ok.
    destruct (get_or job "postedDate" _) as [|d| | |];
      try (eexists; split; reflexivity).
    destruct (fromisoformat _); eexists; split; reflexivity.
  - unfold Main.result_source. rewrite Hu. cbn [str_of existsb].
    by rewrite orb_false_r.
Qed.

Lemma source_attribution_witness :
  (∀ s, Main.standardize_job_data raw_short_link = Some s →
        s !! "source" = Some (PStr (if contains "linkedin.com" "https://lnkd.in/g7xk"
                                    then "LinkedIn" else "Indeed")))
  ∧ (∃ s, JobScraper._normalize_job_data (λ _, "0") (λ _, None) 0 raw_short_link
            = Ok s
          ∧ s !! "source" = Some (PStr (if contains "linkedin" "https://lnkd.in/g7xk"
                                        then "LinkedIn" else "Indeed")))
  ∧ Main.result_source (λ _, "") raw_short_link =
      (if contains "linkedin.com" "https://lnkd.in/g7xk"
          || contains "lnkd.in" "https://lnkd.in/g7xk"
       then "LinkedIn" else "Indeed").
Proof.
  apply (source_attribution (λ _, "0") (λ _, None) 0 (λ _, "") raw_short_link
           "https://lnkd.in/g7xk").
  reflexivity.
Defined.

(** ** The most requested skills *)

(** The skills of a list of mentions, each once, in the order of their
    first mention. *)
Fixpoint first_mentions (l : list string) : list string :=
  match l with
  | [] => []
  | x :: l' => x :: filter (λ y, y ≠ x) (first_mentions l')
  end.

(** How often [k] is mentioned. *)
Definition mentions (k : string) (l : list string) : nat :=
  length (filter (λ y, y = k) l).

(** Skill and count, in the order of first mention. *)
Definition tally (l : list string) : list (string * nat) :=
  (λ k, (k, mentions k l)) <$> first_mentions l.

(** All the mentions of a list of jobs, job after job. *)
Definition mentioned_skills (jobs : list (gmap string pyval))
  : result (list string) :=
  ls ← mapM (λ job, iter (get_or job "required_skills" (PList []))) jobs;
  Ok (concat ls).

Lemma elem_of_first_mentions x l : x ∈ first_mentions l ↔ x ∈ l.
Proof.
  induction l as [|y l IH]; simpl; [done|].
  rewrite !elem_of_cons, list_elem_of_filter, IH.
  destruct (decide (x = y)); tauto.
Qed.

Lemma NoDup_first_mentions l : NoDup (first_mentions l).
Proof.
  induction l as [|y l IH]; simpl; constructor.
  - rewrite list_elem_of_filter. intros [Hne _]. by apply Hne.
  - by apply NoDup_filter.
Qed.

Lemma first_mentions_snoc l x :
  first_mentions (l ++ [x]) =
    if decide (x ∈ l) then first_mentions l else first_mentions l ++ [x].
Proof.
  induction l as [|y l IH]; [done|].
  cbn [app first_mentions]. rewrite IH.
  destruct (decide (x ∈ l)) as [Hin|Hin].
  - rewrite decide_True by (by right). done.
  - rewrite filter_app. destruct (decide (x = y)) as [->|Hne].
    + rewrite decide_True by left.
      rewrite filter_cons_False by (intros Hne; by apply Hne).
      by rewrite filter_nil, app_nil_r.
    + rewrite decide_False by (rewrite elem_of_cons; intuition congruence).
      by rewrite filter_cons_True, filter_nil by done.
Qed.

Lemma mentions_snoc k l x :
  mentions k (l ++ [x]) = (mentions k l + if decide (x = k) then 1 else 0)%nat.
Proof.
  unfold mentions. rewrite filter_app, length_app. f_equal.
  destruct (decide (x = k)).
  - by rewrite filter_cons_True.
  - by rewrite filter_cons_False.
Qed.

Lemma mentions_absent k l : k ∉ l → mentions k l = 0%nat.
Proof.
  intros Hk. unfold mentions.
  induction l as [|y l IH]; [done|].
  apply not_elem_of_cons in Hk as [Hne Hk].
  rewrite filter_cons_False by congruence. by apply IH.
Qed.

(** One more mention of [x] in a table of distinct keys. *)
Lemma bump_tabulate (f : string → nat) (ks : list string) (x : string) :
  NoDup ks →
  Notification.bump x ((λ k, (k, f k)) <$> ks) =
    if decide (x ∈ ks)
    then (λ k, (k, (f k + if decide (x = k) then 1 else 0)%nat)) <$> ks
    else ((λ k, (k, f k)) <$> ks) ++ [(x, 1%nat)].
Proof.
  induction 1 as [|k ks Hk Hks IH]; [done|].
  cbn [fmap list_fmap Notification.bump].
  destruct (String.eqb_spec k x) as [->|Hne].
  - rewrite decide_True by left. rewrite decide_True by done. f_equal.
    apply list_fmap_ext. intros i k' Hk'.
    rewrite decide_False; [by rewrite Nat.add_0_r|].
    intros ->. apply Hk. by eapply list_elem_of_lookup_2.
  - fold (fmap (M:=list) (λ k, (k, f k)) ks). rewrite IH.
    destruct (decide (x ∈ ks)) as [Hin|Hin].
    + rewrite decide_True by (by right).
      rewrite decide_False by done. by rewrite Nat.add_0_r.
    + rewrite decide_False by (rewrite elem_of_cons; intuition congruence). done.
Qed.

Lemma bump_tally l x : Notification.bump x (tally l) = tally (l ++ [x]).
Proof.
  unfold tally. rewrite bump_tabulate by apply NoDup_first_mentions.
  rewrite first_mentions_snoc.
  destruct (decide (x ∈ first_mentions l)) as [Hin|Hin];
    rewrite elem_of_first_mentions in Hin.
  - rewrite decide_True by done.
    apply list_fmap_ext. intros i k _. by rewrite mentions_snoc.
  - rewrite decide_False by done. rewrite fmap_app. f_equal.
    + apply list_fmap_ext. intros i k Hk. rewrite mentions_snoc.
      rewrite decide_False; [by rewrite Nat.add_0_r|].
      intros ->. apply Hin, elem_of_first_mentions.
      by eapply list_elem_of_lookup_2.
    + cbn. rewrite mentions_snoc, mentions_absent by done.
      by rewrite decide_True.
Qed.

Lemma foldl_bump_tally l l' :
  foldl (λ d skill, Notification.bump skill d) (tally l) l' = tally (l ++ l').
Proof.
  revert l. induction l' as [|x l' IH]; intros l; [by rewrite app_nil_r|].
  cbn [foldl]. rewrite bump_tally, IH, <- app_assoc. done.
Qed.

Lemma count_skills_tally jobs l :
  Notification.count_skills jobs (tally l) =
    (l' ← mentioned_skills jobs; Ok (tally (l ++ l'))).
Proof.
  unfold mentioned_skills. revert l.
  induction jobs as [|job jobs IH]; intros l; cbn [Notification.count_skills mapM].
  - cbn. by rewrite app_nil_r.
  - destruct (iter _) as [skills|e]; [|done]. rewrite !bind_Ok.
    rewrite foldl_bump_tally, IH.
    destruct (mapM _ jobs) as [ls|e]; [|done].
    cbn. by rewrite app_assoc.
Qed.

(** The agent's ranking, in full: the tally of all mentions, in the order
    of first mention, sorted by count with the stable sort. *)
Lemma extract_common_skills_tally jobs :
  Notification._extract_common_skills jobs =
    (l ← mentioned_skills jobs; Ok (sort_desc Nat.leb snd (tally l))).
Proof.
  unfold Notification._extract_common_skills.
  change (@nil (string * nat)) with (tally []).
  rewrite count_skills_tally. by destruct (mentioned_skills jobs).
Qed.

Lemma Nat_leb_total a b : Nat.leb a b = true ∨ Nat.leb b a = true.
Proof. rewrite !Nat.leb_le. lia. Qed.

Lemma Nat_leb_trans a b c :
  Nat.leb a b = true → Nat.leb b c = true → Nat.leb a c = true.
Proof. rewrite !Nat.leb_le. lia. Qed.

Lemma Nat_eqb_tied a b : Nat.eqb a b = Nat.leb a b && Nat.leb b a.
Proof.
  apply eq_true_iff_eq.
  rewrite andb_true_iff, Nat.eqb_eq, !Nat.leb_le. lia.
Qed.

(** What the agent's ranking promises of the list [ranking] made from the
    table [table]: the same pairs, highest count first, pairs of equal
    count in their order in the table. *)
Definition ranked_by_count (table ranking : list (string * nat)) : Prop :=
  ranking ≡ₚ table
  ∧ StronglySorted (λ a b, (snd b ≤ snd a)%nat) ranking
  ∧ ∀ n, List.filter (λ p, Nat.eqb (snd p) n) ranking
         = List.filter (λ p, Nat.eqb (snd p) n) table.

Lemma sort_desc_ranked_by_count table :
  ranked_by_count table (sort_desc Nat.leb snd table).
Proof.
  split; [|split].
  - apply sort_desc_perm.
  - eapply StronglySorted_weaken;
      [|exact (sort_desc_sorted Nat.leb snd Nat_leb_total Nat_leb_trans table)].
    intros x y. unfold desc. by rewrite Nat.leb_le.
  - intros n.
    rewrite !(filter_ext (λ p, Nat.eqb (snd p) n) (tied Nat.leb snd n))
      by (intros; apply Nat_eqb_tied).
    apply sort_desc_stable, Nat_leb_trans.
Qed.

(** The order the specification words: by count, highest first, and by
    name among equal counts. *)
Definition ranked_per_spec (ranking : list (string * nat)) : Prop :=
  StronglySorted
    (λ a b, (snd b < snd a)%nat
            ∨ (snd a = snd b ∧ String.ltb (fst a) (fst b) = true))
    ranking.

(** C6, refuted as stated.  Two skills mentioned once each come out in
    the order of their mention, SQL before Python, not alphabetically. *)
Lemma skill_ties_counterexample :
  Notification._extract_common_skills
    [ {[ "required_skills" := PList ["SQL"; "Python"] ]} ]
  = Ok [ ("SQL", 1%nat); ("Python", 1%nat) ]
  ∧ ¬ ranked_per_spec [ ("SQL", 1%nat); ("Python", 1%nat) ].
Proof.
  split; [vm_compute; reflexivity|].
  intros H. apply StronglySorted_inv in H as [_ H].
  apply Forall_cons in H as [[H|[_ H]] _]; simpl in H; [lia|].
  vm_compute in H. discriminate.
Qed.

(** The skills found in the descriptions by the actor's [format_results]
    are distinct members of its fixed vocabulary. *)
Definition vocabulary_only (all_skills : list string) : Prop :=
  NoDup all_skills ∧ ∀ k, k ∈ all_skills → k ∈ Main.common_skills.

Lemma add_skills_fold_vocabulary description cs all_skills :
  (∀ k, k ∈ cs → k ∈ Main.common_skills) →
  vocabulary_only all_skills →
  vocabulary_only
    (foldl (λ all_skills skill,
              if contains (lower skill) (lower description)
                 && negb (bool_decide (skill ∈ all_skills))
              then all_skills ++ [skill] else all_skills)
           all_skills cs).
Proof.
  revert all_skills.
  induction cs as [|skill cs IH]; intros all_skills Hcs Hinv; [done|].
  cbn [foldl]. apply IH; [intros k Hk; apply Hcs; by right|].
  destruct (contains _ _); [|done]. cbn [andb].
  destruct (bool_decide_reflect (skill ∈ all_skills)) as [Hin|Hin]; [done|].
  destruct Hinv as [Hnd Hsub]. split.
  - apply NoDup_app. split; [done|]. split; [|apply NoDup_singleton].
    intros k Hk ->%list_elem_of_singleton. done.
  - intros k [Hk| ->%list_elem_of_singleton]%elem_of_app; [by apply Hsub|].
    apply Hcs. left.
Qed.

Lemma add_skills_vocabulary description all_skills :
  vocabulary_only all_skills →
  vocabulary_only (Main.add_skills description all_skills).
Proof. by apply add_skills_fold_vocabulary. Qed.

Lemma extract_skills_vocabulary scored_jobs all_skills found :
  vocabulary_only all_skills →
  Main.extract_skills scored_jobs all_skills = Ok found →
  vocabulary_only found.
Proof.
  revert all_skills. induction scored_jobs as [|job rest IH];
    intros all_skills Hinv; cbn [Main.extract_skills].
  - by intros [= <-].
  - destruct (truthy _); [|by apply IH].
    destruct (py_or _ _); try done.
    apply IH. by apply add_skills_vocabulary.
Qed.

(** C6, as the code has it.  The agent's ranking of required skills is
    the table of skill and number of mentions, sorted by count, highest
    first; skills of equal count stay in the order of their first mention;
    the summary shows the first five.  The actor's statistics list at
    most five distinct skills of its fixed vocabulary, without counts. *)
Theorem most_requested_skills_ranking
    (scored_listings : list ScoredJob) (scored_jobs : list Main.MatchedJob)
    (skills : list string) :
  mentioned_skills (sj_job <$> scored_listings) = Ok skills →
  (∃ ranking,
     Notification._extract_common_skills (sj_job <$> scored_listings) = Ok ranking
     ∧ ranked_by_count (tally skills) ranking
     ∧ Notification.most_requested_skills scored_listings = Ok (take 5 ranking))
  ∧ ∀ top,
      Main.topSkillsRequested (Main.statistics scored_jobs) = Some top →
      (length top ≤ 5)%nat ∧ vocabulary_only top.
Proof.
  intros Hskills. split.
  - exists (sort_desc Nat.leb snd (tally skills)).
    assert (Notification._extract_common_skills (sj_job <$> scored_listings)
            = Ok (sort_desc Nat.leb snd (tally skills))) as E.
    { by rewrite extract_common_skills_tally, Hskills. }
    split; [exact E|]. split; [apply sort_desc_ranked_by_count|].
    unfold Notification.most_requested_skills. by rewrite E.
  - intros top. unfold Main.statistics.
    destruct (Main.extract_skills scored_jobs []) as [found|] eqn:E; [|done].
    cbn. intros [= <-]. split; [rewrite length_take; lia|].
    apply extract_skills_vocabulary in E as [Hnd Hsub];
      [|split; [constructor | by intros k ?%elem_of_nil]].
    split.
    + rewrite <- (take_drop 5 found) in Hnd. by apply NoDup_app in Hnd as [? _].
    + intros k Hk. apply Hsub. rewrite <- (take_drop 5 found).
      apply elem_of_app. by left.
Qed.

Definition two_listings : list ScoredJob :=
  [ {| sj_job := {[ "required_skills" := PList ["SQL"; "Python"] ]};
       sj_total_score := 90; sj_score_breakdown := ∅; sj_match_details := ∅ |};
    {| sj_job := {[ "required_skills" := PList ["Go"; "Python"] ]};
       sj_total_score := 70; sj_score_breakdown := ∅; sj_match_details := ∅ |} ].

Lemma most_requested_skills_ranking_witness :
  (∃ ranking,
     Notification._extract_common_skills (sj_job <$> two_listings) = Ok ranking
     ∧ ranked_by_count (tally ["SQL"; "Python"; "Go"; "Python"]) ranking
     ∧ Notification.most_requested_skills two_listings = Ok (take 5 ranking))
  ∧ ∀ top,
      Main.topSkillsRequested (Main.statistics []) = Some top →
      (length top ≤ 5)%nat ∧ vocabulary_only top.
Proof.
  apply (most_requested_skills_ranking two_listings []
           ["SQL"; "Python"; "Go"; "Python"]).
  vm_compute. reflexivity.
Defined.

(* ===================================================================== *)
(** * Further properties of the code *)
(* ===================================================================== *)

(** ** The retry wrapper *)

Section RetryFacts.
Context {A E : Type} (func : nat → A + E) (max_attempts delay : Z).
Hypothesis delay_nonneg : (0 ≤ delay)%Z.

(** From [attempts] failed calls on, [i] more failures and then a
    success, all within the allowance. *)
Lemma loop_first_success fuel attempts slept0 i a :
  (∀ k, (attempts ≤ k < attempts + i)%nat → ∃ e, func k = inr e) →
  func (attempts + i)%nat = inl a →
  (Z.of_nat (attempts + i) < max_attempts)%Z →
  (i < fuel)%nat →
  Retry.loop func max_attempts delay fuel attempts slept0 =
    Some {| Retry.ending := Retry.Returned a;
            Retry.calls := S (attempts + i);
            Retry.slept := (slept0 + Z.of_nat i * delay)%Z |}.
Proof.
  revert fuel attempts slept0.
  induction i as [|i IH]; intros fuel attempts slept0 Hfail Hok Hlt Hfuel;
    (destruct fuel as [|fuel]; [lia|]); cbn [Retry.loop].
  - rewrite Nat.add_0_r in *.
    rewrite (proj2 (Z.ltb_lt _ _)) by lia. cbn [negb].
    rewrite Hok. do 2 f_equal. lia.
  - rewrite (proj2 (Z.ltb_lt _ _)) by lia. cbn [negb].
    destruct (Hfail attempts) as [e He]; [lia|]. rewrite He.
    rewrite (proj2 (Z.leb_gt _ _)) by lia.
    rewrite (proj2 (Z.ltb_ge _ _)) by lia.
    rewrite (IH fuel (S attempts)).
    + do 2 f_equal; lia.
    + intros k Hk. apply Hfail. lia.
    + by replace (S attempts + i)%nat with (attempts + S i)%nat by lia.
    + lia.
    + lia.
Qed.

(** From [attempts] failed calls on, failures up to the allowance. *)
Lemma loop_exhausted (errs : nat → E) fuel attempts slept0 i :
  (∀ k, (attempts ≤ k ≤ attempts + i)%nat → func k = inr (errs k)) →
  Z.of_nat (S (attempts + i)) = max_attempts →
  (i < fuel)%nat →
  Retry.loop func max_attempts delay fuel attempts slept0 =
    Some {| Retry.ending := Retry.Reraised (errs (attempts + i)%nat);
            Retry.calls := S (attempts + i);
            Retry.slept := (slept0 + Z.of_nat i * delay)%Z |}.
Proof.
  revert fuel attempts slept0.
  induction i as [|i IH]; intros fuel attempts slept0 Hfail Hmax Hfuel;
    (destruct fuel as [|fuel]; [lia|]); cbn [Retry.loop];
    rewrite (proj2 (Z.ltb_lt _ _)) by lia; cbn [negb];
    rewrite (Hfail attempts) by lia.
  - rewrite Nat.add_0_r in *.
    rewrite (proj2 (Z.leb_le _ _)) by lia. do 2 f_equal. lia.
  - rewrite (proj2 (Z.leb_gt _ _)) by lia.
    rewrite (proj2 (Z.ltb_ge _ _)) by lia.
    rewrite (IH fuel (S attempts)).
    + replace (S attempts + i)%nat with (attempts + S i)%nat by lia.
      do 2 f_equal; lia.
    + intros k Hk. apply Hfail. lia.
    + lia.
    + lia.
Qed.

(** With enough fuel the loop ends, and within the allowance. *)
Lemma loop_bounded fuel attempts slept0 :
  (max_attempts ≤ Z.of_nat (fuel + attempts))%Z →
  ∃ r, Retry.loop func max_attempts delay fuel attempts slept0 = Some r
       ∧ (attempts ≤ Retry.calls r)%nat
       ∧ (Z.of_nat (Retry.calls r) ≤ Z.max max_attempts (Z.of_nat attempts))%Z
       ∧ (slept0 ≤ Retry.slept r)%Z
       ∧ (Retry.slept r
          ≤ slept0 + Z.max 0 (max_attempts - 1 - Z.of_nat attempts) * delay)%Z
       ∧ (Retry.ending r = Retry.RuntimeError →
          (max_attempts ≤ Z.of_nat attempts)%Z)
       ∧ Retry.ending r ≠ Retry.SleepRejected.
Proof.
  assert (∀ x, 0 ≤ Z.max 0 x * delay)%Z as Hpos
    by (intros; apply Z.mul_nonneg_nonneg; lia).
  revert attempts slept0.
  induction fuel as [|fuel IH]; intros attempts slept0 Hfuel; cbn [Retry.loop].
  - rewrite (proj2 (Z.ltb_ge _ _)) by lia. cbn [negb].
    eexists. split; [reflexivity|]. cbn.
    pose proof (Hpos (max_attempts - 1 - Z.of_nat attempts)%Z).
    repeat split; try discriminate; lia.
  - destruct (Z.ltb_spec (Z.of_nat attempts) max_attempts) as [Hlt|Hge];
      cbn [negb].
    2: { eexists. split; [reflexivity|]. cbn.
         pose proof (Hpos (max_attempts - 1 - Z.of_nat attempts)%Z).
         repeat split; try discriminate; lia. }
    destruct (func attempts) as [a|e].
    { eexists. split; [reflexivity|]. cbn.
      pose proof (Hpos (max_attempts - 1 - Z.of_nat attempts)%Z).
      repeat split; try discriminate; lia. }
    destruct (Z.leb_spec max_attempts (Z.of_nat (S attempts))) as [Hle|Hgt].
    { eexists. split; [reflexivity|]. cbn.
      pose proof (Hpos (max_attempts - 1 - Z.of_nat attempts)%Z).
      repeat split; try discriminate; lia. }
    rewrite (proj2 (Z.ltb_ge _ _)) by lia.
    destruct (IH (S attempts) (slept0 + delay)%Z)
      as (r & -> & H1 & H2 & H3 & H4 & H5 & H6); [lia|].
    exists r. split; [reflexivity|].
    rewrite Z.max_r in H4 by lia.
    rewrite (Z.max_r 0 (max_attempts - 1 - Z.of_nat attempts)) by lia.
    split; [lia|]. split; [lia|]. split; [lia|]. split; [nia|].
    split; [|done]. intros H. apply H5 in H. lia.
Qed.
End RetryFacts.

Lemma or_default_nonzero x dflt : dflt ≠ 0%Z → Retry.or_default x dflt ≠ 0%Z.
Proof.
  intros Hd. unfold Retry.or_default. destruct x as [v|]; [|done].
  destruct (Z.eqb_spec v 0); done.
Qed.

(** X1. A wrapped call that fails [i] times and then succeeds, with [i]
    below the allowance, returns that first success after [i + 1] calls
    and [i] pauses. *)
Theorem with_retry_first_success {A E} (max_attempts delay : option Z)
    (func : nat → A + E) (i : nat) (a : A) :
  (0 ≤ Retry.or_default delay Retry.RETRY_DELAY)%Z →
  (∀ k, (k < i)%nat → ∃ e, func k = inr e) →
  func i = inl a →
  (Z.of_nat i < Retry.or_default max_attempts Retry.RETRY_ATTEMPTS)%Z →
  Retry.with_retry max_attempts delay func =
    Some {| Retry.ending := Retry.Returned a;
            Retry.calls := S i;
            Retry.slept :=
              (Z.of_nat i * Retry.or_default delay Retry.RETRY_DELAY)%Z |}.
Proof.
  intros Hd Hfail Hok Hlt. unfold Retry.with_retry.
  rewrite (loop_first_success func _ _ Hd _ 0%nat 0%Z i a); try done.
  - intros k Hk. apply Hfail. lia.
  - lia.
Qed.

Lemma with_retry_first_success_witness :
  Retry.with_retry None None
    (λ k, if (k <? 2)%nat then inr "timeout" else inl 7%nat) =
    Some {| Retry.ending := Retry.Returned 7%nat;
            Retry.calls := 3;
            Retry.slept := (Z.of_nat 2 * Retry.or_default None Retry.RETRY_DELAY)%Z |}.
Proof.
  apply (with_retry_first_success None None
           (λ k, if (k <? 2)%nat then inr "timeout" else inl 7%nat) 2 7%nat).
  - vm_compute. discriminate.
  - intros k Hk. exists "timeout". by rewrite (proj2 (Nat.ltb_lt _ _)).
  - reflexivity.
  - reflexivity.
Defined.

(** X2. A wrapped call that fails on every one of its [n + 1] allowed
    attempts re-raises the error of the last attempt, after exactly
    [n + 1] calls and [n] pauses. *)
Theorem with_retry_exhausted {A E} (max_attempts delay : option Z)
    (func : nat → A + E) (errs : nat → E) (n : nat) :
  (0 ≤ Retry.or_default delay Retry.RETRY_DELAY)%Z →
  Retry.or_default max_attempts Retry.RETRY_ATTEMPTS = Z.of_nat (S n) →
  (∀ k, (k ≤ n)%nat → func k = inr (errs k)) →
  Retry.with_retry max_attempts delay func =
    Some {| Retry.ending := Retry.Reraised (errs n);
            Retry.calls := S n;
            Retry.slept :=
              (Z.of_nat n * Retry.or_default delay Retry.RETRY_DELAY)%Z |}.
Proof.
  intros Hd Hmax Hfail. unfold Retry.with_retry.
  rewrite (loop_exhausted func _ _ Hd errs _ 0%nat 0%Z n); try done.
  - intros k Hk. apply Hfail. lia.
  - rewrite Hmax. lia.
Qed.

Lemma with_retry_exhausted_witness :
  Retry.with_retry (A:=nat) None None (λ k, inr k) =
    Some {| Retry.ending := Retry.Reraised 2%nat;
            Retry.calls := 3;
            Retry.slept := (Z.of_nat 2 * Retry.or_default None Retry.RETRY_DELAY)%Z |}.
Proof.
  apply (with_retry_exhausted (A:=nat) None None (λ k, inr k) (λ k, k) 2).
  - vm_compute. discriminate.
  - reflexivity.
  - reflexivity.
Defined.

(** X3. Whatever the wrapped function does, the wrapper ends: it calls
    the function at most [max_attempts] times and pauses at most
    [max_attempts - 1] times; it ends in the "unexpected" [RuntimeError]
    exactly when [max_attempts] is negative, and then without a call. *)
Theorem with_retry_bounded {A E} (max_attempts delay : option Z)
    (func : nat → A + E) :
  let n := Retry.or_default max_attempts Retry.RETRY_ATTEMPTS in
  let d := Retry.or_default delay Retry.RETRY_DELAY in
  (0 ≤ d)%Z →
  ∃ r, Retry.with_retry max_attempts delay func = Some r
       ∧ (Z.of_nat (Retry.calls r) ≤ Z.max n 0)%Z
       ∧ (0 ≤ Retry.slept r ≤ Z.max 0 (n - 1) * d)%Z
       ∧ (Retry.ending r = Retry.RuntimeError ↔ (n < 0)%Z)
       ∧ (Retry.ending r = Retry.RuntimeError → Retry.calls r = 0%nat).
Proof.
  intros n d Hd. unfold Retry.with_retry. fold n d.
  destruct (loop_bounded func n d Hd (Z.to_nat n) 0 0%Z)
    as (r & Hr & H1 & H2 & H3 & H4 & H5 & H6); [lia|].
  exists r. split; [exact Hr|]. split; [lia|].
  split; [split; [lia|]; by rewrite Z.sub_0_r in H4|].
  assert (n ≠ 0%Z) as Hn by (by apply or_default_nonzero).
  destruct (Z.ltb_spec 0 n) as [Hpos|Hneg].
  - split; [split; [intros H; apply H5 in H; simpl in H; lia | lia]|].
    intros H. apply H5 in H. simpl in H. lia.
  - assert (Z.to_nat n = 0%nat) as Hz by lia. rewrite Hz in Hr.
    cbn [Retry.loop] in Hr. rewrite (proj2 (Z.ltb_ge _ _)) in Hr by (simpl; lia).
    injection Hr as <-. cbn. split; [split; [lia | done] | done].
Qed.

Lemma with_retry_bounded_witness :
  ∃ r, Retry.with_retry (A:=nat) (Some (-2)%Z) None (λ k, inr k) = Some r
       ∧ (Z.of_nat (Retry.calls r)
          ≤ Z.max (Retry.or_default (Some (-2)%Z) Retry.RETRY_ATTEMPTS) 0)%Z
       ∧ (0 ≤ Retry.slept r
          ≤ Z.max 0 (Retry.or_default (Some (-2)%Z) Retry.RETRY_ATTEMPTS - 1)
            * Retry.or_default None Retry.RETRY_DELAY)%Z
       ∧ (Retry.ending r = Retry.RuntimeError
          ↔ (Retry.or_default (Some (-2)%Z) Retry.RETRY_ATTEMPTS < 0)%Z)
       ∧ (Retry.ending r = Retry.RuntimeError → Retry.calls r = 0%nat).
Proof.
  apply (with_retry_bounded (A:=nat) (Some (-2)%Z) None (λ k, inr k)).
  vm_compute. discriminate.
Defined.

(** ** The preliminary scorer of the scraper agent *)

Lemma score_title_match_values title role x :
  PreScorer._score_title_match title role = Ok x →
  x = 1.0 ∨ x = 0.8 ∨ x = 0.4.
Proof.
  unfold PreScorer._score_title_match.
  destruct (str_lower title) as [t|]; [|done]. rewrite bind_Ok.
  destruct (String.eqb _ _); [intros [= <-]; auto|].
  destruct (_ || _); intros [= <-]; auto.
Qed.

Lemma score_location_match_values location preferred x :
  PreScorer._score_location_match location preferred = Ok x →
  x = 0.5 ∨ x = 1.0.
Proof.
  unfold PreScorer._score_location_match.
  destruct (_ || _); [intros [= <-]; auto|].
  destruct (str_lower location) as [l|]; [|done]. rewrite bind_Ok.
  destruct (contains "remote" l); [intros [= <-]; auto|].
  destruct (contains _ l); intros [= <-]; auto.
Qed.

Lemma score_posting_date_values now posted x :
  PreScorer._score_posting_date now posted = Ok x →
  x = 1.0 ∨ x = 0.8 ∨ x = 0.6 ∨ x = 0.4.
Proof.
  unfold PreScorer._score_posting_date. destruct posted; try done.
  repeat (destruct (_ <=? _)%Z; [intros [= <-]; auto|]).
  intros [= <-]; auto.
Qed.

Lemma getitem_Ok d k v : PreScorer.getitem d k = Ok v → d !! k = Some v.
Proof. unfold PreScorer.getitem. destruct (d !! k); by intros [= <-]. Qed.

(** The initial score, taken apart. *)
Lemma calculate_initial_score_Ok now job resume x :
  PreScorer._calculate_initial_score now job resume = Ok x →
  ∃ tm lm pd,
    PreScorer._score_title_match (get job "title")
      (PreScorer.desired_role resume) = Ok tm
    ∧ PreScorer._score_location_match (get job "location")
        (PreScorer.location_preference resume) = Ok lm
    ∧ PreScorer._score_posting_date now (get_or job "posted_date" (PDate now))
        = Ok pd
    ∧ x = 0 + tm * 0.4 + lm * 0.3 + 0.7 * 0.2 + pd * 0.1.
Proof.
  unfold PreScorer._calculate_initial_score.
  destruct (PreScorer.getitem job "title") as [title|] eqn:Ht; [|done].
  rewrite bind_Ok. apply getitem_Ok in Ht.
  destruct (PreScorer._score_title_match title _) as [tm|] eqn:Htm; [|done].
  rewrite bind_Ok.
  destruct (PreScorer.getitem job "location") as [location|] eqn:Hl; [|done].
  rewrite bind_Ok. apply getitem_Ok in Hl.
  destruct (PreScorer._score_location_match location _) as [lm|] eqn:Hlm; [|done].
  rewrite bind_Ok.
  destruct (PreScorer.getitem job "company") as [company|]; [|done].
  rewrite bind_Ok.
  destruct (PreScorer._score_posting_date now _) as [pd|] eqn:Hpd; [|done].
  rewrite bind_Ok. intros [= <-].
  exists tm, lm, pd. unfold get. rewrite Ht, Hl. done.
Qed.

(** X4. Whenever the preliminary scorer answers, its score lies between
    0.49 and 0.94, hence in the unit interval. *)
Theorem initial_score_range now job resume x :
  PreScorer._calculate_initial_score now job resume = Ok x →
  0.49 <= x ∧ x <= 0.94.
Proof.
  intros (tm & lm & pd & Htm & Hlm & Hpd & ->)%calculate_initial_score_Ok.
  apply score_title_match_values in Htm.
  apply score_location_match_values in Hlm.
  apply score_posting_date_values in Hpd.
  destruct Htm as [->|[->| ->]], Hlm as [->| ->], Hpd as [->|[->|[->| ->]]];
    split; apply Qle_bool_iff; vm_compute; reflexivity.
Qed.

(** A normalized record, scored on the day it was posted. *)
Definition scraped_example : gmap string pyval :=
  list_to_map [ ("title", PStr "Senior Software Engineer");
                ("company", PStr "Acme"); ("location", PStr "Boston, MA");
                ("posted_date", PDate 0) ].

Definition resume_example : PreScorer.ResumeData :=
  {| PreScorer.desired_role := "Software Engineer";
     PreScorer.location_preference := "New York, NY";
     PreScorer.industry_experience := [] |}.

Lemma initial_score_range_witness :
  0.49 <= 0 + 0.8 * 0.4 + 0.5 * 0.3 + 0.7 * 0.2 + 1.0 * 0.1
  ∧ 0 + 0.8 * 0.4 + 0.5 * 0.3 + 0.7 * 0.2 + 1.0 * 0.1 <= 0.94.
Proof.
  apply (initial_score_range 0 scraped_example resume_example).
  reflexivity.
Defined.

(** X5. A scored record reaches the detail threshold 0.6 exactly when its
    title is related to the desired role or its location matches: the
    posting date never decides. *)
Theorem initial_score_threshold now job resume x :
  PreScorer._calculate_initial_score now job resume = Ok x →
  ∃ tm lm,
    PreScorer._score_title_match (get job "title")
      (PreScorer.desired_role resume) = Ok tm
    ∧ PreScorer._score_location_match (get job "location")
        (PreScorer.location_preference resume) = Ok lm
    ∧ (Qle_bool PreScorer.detail_fetch_threshold x = true
       ↔ ¬ (tm = 0.4 ∧ lm = 0.5)).
Proof.
  intros (tm & lm & pd & Htm & Hlm & Hpd & ->)%calculate_initial_score_Ok.
  exists tm, lm. split; [exact Htm|]. split; [exact Hlm|].
  apply score_title_match_values in Htm.
  apply score_location_match_values in Hlm.
  apply score_posting_date_values in Hpd.
  destruct Htm as [->|[->| ->]], Hlm as [->| ->], Hpd as [->|[->|[->| ->]]];
    vm_compute; split; try done; try (intros _ [? ?]; done);
    intros H; exfalso; apply H; done.
Qed.

Lemma initial_score_threshold_witness :
  ∃ tm lm,
    PreScorer._score_title_match (get scraped_example "title")
      (PreScorer.desired_role resume_example) = Ok tm
    ∧ PreScorer._score_location_match (get scraped_example "location")
        (PreScorer.location_preference resume_example) = Ok lm
    ∧ (Qle_bool PreScorer.detail_fetch_threshold
         (0 + 0.8 * 0.4 + 0.5 * 0.3 + 0.7 * 0.2 + 1.0 * 0.1) = true
       ↔ ¬ (tm = 0.4 ∧ lm = 0.5)).
Proof.
  apply (initial_score_threshold 0 scraped_example resume_example).
  reflexivity.
Defined.

(** X6. An older posting never scores higher than a newer one. *)
Theorem score_posting_date_antitone (now t_old t_new : Z) :
  (t_old ≤ t_new)%Z →
  ∃ s_old s_new,
    PreScorer._score_posting_date now (PDate t_old) = Ok s_old
    ∧ PreScorer._score_posting_date now (PDate t_new) = Ok s_new
    ∧ s_old <= s_new.
Proof.
  intros Hle. unfold PreScorer._score_posting_date.
  assert ((now - t_new) / 86400 ≤ (now - t_old) / 86400)%Z as Hdays
    by (apply Z.div_le_mono; lia).
  repeat match goal with
         | |- context [(?a <=? ?b)%Z] => destruct (Z.leb_spec a b)
         end;
    try lia;
    (eexists _, _; split; [reflexivity|]; split; [reflexivity|]);
    apply Qle_bool_iff; vm_compute; reflexivity.
Qed.

Lemma score_posting_date_antitone_witness :
  ∃ s_old s_new,
    PreScorer._score_posting_date 2000000 (PDate 0) = Ok s_old
    ∧ PreScorer._score_posting_date 2000000 (PDate 1900000) = Ok s_new
    ∧ s_old <= s_new.
Proof. apply score_posting_date_antitone. lia. Defined.

(** X7. The preliminary title score does not depend on which of the two
    strings is the job title and which the desired role. *)
Theorem score_title_match_symmetric (a b : string) :
  PreScorer._score_title_match (PStr a) b = PreScorer._score_title_match (PStr b) a.
Proof.
  unfold PreScorer._score_title_match. cbn [str_lower]. rewrite !bind_Ok.
  rewrite (String.eqb_sym (lower a) (lower b)).
  by rewrite (orb_comm (contains (lower b) (lower a))).
Qed.

(** The head of a sorted list dominates its tail. *)
Lemma sorted_take_drop {A} (R : A → A → Prop) (n : nat) (l : list A) :
  StronglySorted R l →
  StronglySorted R (take n l)
  ∧ (∀ a b, a ∈ take n l → b ∈ drop n l → R a b)
  ∧ (drop n l = [] ∨ length (take n l) = n).
Proof.
  intros Hl. rewrite <- (take_drop n l) in Hl.
  apply StronglySorted_app in Hl as (Hcross & Htake & _).
  split; [exact Htake|]. split; [exact Hcross|].
  destruct (decide (n ≤ length l)%nat) as [Hn|Hn].
  - right. by apply length_take_le.
  - left. apply drop_ge. lia.
Qed.

(** X8. The promising jobs are the best of the scored records that reach
    the threshold: at most five of them, in descending order of initial
    score, every one at least as good as any record left behind; none is
    left behind unless five were taken. *)
Theorem promising_are_the_best (all_jobs : list (gmap string pyval)) :
  let selected := PreScorer.promising all_jobs in
  (length selected ≤ PreScorer.max_details_to_fetch)%nat
  ∧ StronglySorted
      (λ a b, PreScorer.initial_score b <= PreScorer.initial_score a) selected
  ∧ (∀ j, j ∈ selected →
          j ∈ all_jobs ∧ PreScorer.detail_fetch_threshold <= PreScorer.initial_score j)
  ∧ ∃ left_behind,
      selected ++ left_behind
        ≡ₚ List.filter
             (λ j, Qle_bool PreScorer.detail_fetch_threshold
                            (PreScorer.initial_score j)) all_jobs
      ∧ (∀ a b, a ∈ selected → b ∈ left_behind →
                PreScorer.initial_score b <= PreScorer.initial_score a)
      ∧ (left_behind = []
         ∨ length selected = PreScorer.max_details_to_fetch).
Proof.
  intros selected. unfold selected, PreScorer.promising.
  set (passed := List.filter _ all_jobs).
  destruct (sort_desc_ranked PreScorer.initial_score passed) as (Hperm & Hsorted & _).
  set (sorted := sort_desc Qle_bool PreScorer.initial_score passed) in *.
  destruct (sorted_take_drop _ PreScorer.max_details_to_fetch sorted Hsorted)
    as (Htake & Hcross & Hfull).
  split; [rewrite length_take; lia|]. split; [exact Htake|]. split.
  - intros j Hj.
    assert (j ∈ passed) as Hin.
    { rewrite <- Hperm, <- (take_drop PreScorer.max_details_to_fetch sorted).
      apply elem_of_app. by left. }
    apply list_elem_of_In, filter_In in Hin as [Hin Hq].
    split; [by apply list_elem_of_In | by apply Qle_bool_iff].
  - exists (drop PreScorer.max_details_to_fetch sorted).
    split; [by rewrite take_drop|]. split; [exact Hcross | exact Hfull].
Qed.

(** The fetch loop over urls that are strings. *)
Lemma fetch_loop_strings
    (run_detail_actor : pyval → result (list (gmap string pyval)))
    (urls : list string) (acc : list (gmap string pyval)) :
  PreScorer.fetch_loop run_detail_actor (PStr <$> urls) acc =
    (details ← mapM (λ u, run_detail_actor (PStr u))
                    (List.filter (contains "linkedin.com") urls);
     Ok (acc ++ concat details)).
Proof.
  revert acc. induction urls as [|u urls IH]; intros acc.
  - cbn. by rewrite app_nil_r.
  - cbn [fmap list_fmap PreScorer.fetch_loop str_in List.filter].
    rewrite bind_Ok. destruct (contains "linkedin.com" u); [|apply IH].
    cbn [mapM]. destruct (run_detail_actor (PStr u)) as [d|e]; [|done].
    rewrite !bind_Ok.
    change (list_fmap string pyval PStr urls) with (PStr <$> urls).
    rewrite IH.
    destruct (mapM _ _) as [ds|e]; [|done]. rewrite !bind_Ok.
    cbn [concat]. by rewrite app_assoc.
Qed.

(** X9. The detail fetch runs the detail actor for the urls that contain
    ["linkedin.com"], in order, and for no other url; its result is the
    concatenation of what the actor returned. *)
Theorem fetch_job_details_linkedin_only
    (run_detail_actor : pyval → result (list (gmap string pyval)))
    (urls : list string) :
  PreScorer._fetch_job_details run_detail_actor (PStr <$> urls) =
    (details ← mapM (λ u, run_detail_actor (PStr u))
                    (List.filter (contains "linkedin.com") urls);
     Ok (concat details)).
Proof. apply (fetch_loop_strings run_detail_actor urls []). Qed.

Lemma fetch_loop_no_linkedin
    (run_detail_actor : pyval → result (list (gmap string pyval)))
    (jobs : list (gmap string pyval)) (acc : list (gmap string pyval)) :
  (∀ j, j ∈ jobs →
     ∃ u, j !! "url" = Some (PStr u) ∧ contains "linkedin.com" u = false) →
  PreScorer.fetch_loop run_detail_actor
    (omap (λ job : gmap string pyval, job !! "url") jobs) acc = Ok acc.
Proof.
  induction jobs as [|j jobs IH]; intros Hurl; [done|].
  destruct (Hurl j) as (u & Hu & Hno); [left|].
  cbn [omap list_omap]. rewrite Hu. cbn [PreScorer.fetch_loop str_in].
  rewrite bind_Ok, Hno. apply IH. intros j' Hj'. apply Hurl. by right.
Qed.

(** X10. When no promising job carries a ["linkedin.com"] url, nothing is
    fetched and the stage passes on the promising jobs themselves. *)
Theorem process_listings_without_linkedin
    (hash_str : gmap string pyval → string) (fromisoformat : string → option Z)
    (carries_offset : string → bool)
    (run_detail_actor : pyval → result (list (gmap string pyval)))
    (now : Z) (resume_data : PreScorer.ResumeData)
    (linkedin_jobs indeed_jobs all_jobs : list (gmap string pyval)) :
  mapM (PreScorer.score_initial hash_str fromisoformat carries_offset
          now resume_data)
       (linkedin_jobs ++ indeed_jobs) = Ok all_jobs →
  (∀ j, j ∈ PreScorer.promising all_jobs →
     ∃ u, j !! "url" = Some (PStr u) ∧ contains "linkedin.com" u = false) →
  PreScorer.process_listings hash_str fromisoformat carries_offset
    run_detail_actor now resume_data linkedin_jobs indeed_jobs
  = Ok (PreScorer.promising all_jobs).
Proof.
  intros Hall Hurl. unfold PreScorer.process_listings, PreScorer._fetch_job_details.
  rewrite Hall, bind_Ok. by rewrite (fetch_loop_no_linkedin _ _ [] Hurl), bind_Ok.
Qed.

Definition indeed_raw : gmap string pyval :=
  list_to_map [ ("title", PStr "Software Engineer"); ("company", PStr "Acme");
                ("location", PStr "New York, NY");
                ("url", PStr "https://www.indeed.com/viewjob?jk=1") ].

Definition indeed_scored : gmap string pyval :=
  <["initial_score" := PNum (0 + 1.0 * 0.4 + 1.0 * 0.3 + 0.7 * 0.2 + 1.0 * 0.1)]>
    (<["posted_date" := PDate (0 - JobScraper.days 7)]>
       (list_to_map
          [ ("job_id", PStr "0"); ("title", PStr "Software Engineer");
            ("company", PStr "Acme"); ("location", PStr "New York, NY");
            ("url", PStr "https://www.indeed.com/viewjob?jk=1");
            ("source", PStr "Indeed") ])).

Lemma process_listings_without_linkedin_witness :
  PreScorer.process_listings (λ _, "0") (λ _, None) (λ _, true) (λ _, Ok [])
    0 resume_example [] [indeed_raw]
  = Ok (PreScorer.promising [indeed_scored]).
Proof.
  apply (process_listings_without_linkedin (λ _, "0") (λ _, None) (λ _, true)
           (λ _, Ok []) 0 resume_example [] [indeed_raw] [indeed_scored]).
  - vm_compute. reflexivity.
  - intros j Hj.
    assert (PreScorer.promising [indeed_scored] = [indeed_scored]) as E
      by (vm_compute; reflexivity).
    rewrite E in Hj. apply list_elem_of_singleton in Hj as ->.
    exists "https://www.indeed.com/viewjob?jk=1". split; vm_compute; reflexivity.
Defined.

(** ** The category scorers of the relevance scorer *)

Lemma ratio_bounds (c m : nat) :
  (1 ≤ c)%nat → (c ≤ m)%nat →
  0 < of_nat c / of_nat m ∧ of_nat c / of_nat m <= 1.
Proof.
  intros Hc Hm. unfold of_nat.
  assert (0 < inject_Z (Z.of_nat m)) as Hpos.
  { change 0 with (inject_Z 0). rewrite <- Zlt_Qlt. lia. }
  split.
  - apply Qlt_shift_div_l; [exact Hpos|]. rewrite Qmult_0_l.
    change 0 with (inject_Z 0). rewrite <- Zlt_Qlt. lia.
  - apply Qle_shift_div_r; [exact Hpos|]. rewrite Qmult_1_l.
    rewrite <- Zle_Qle. lia.
Qed.

(** X11. Whenever the position scorer answers, its score is positive and
    at most 1. *)
Theorem position_match_range (job_title desired_role : pyval) (x : Q) :
  RelevanceScorer._score_position_match job_title desired_role = Ok x →
  0 < x ∧ x <= 1.
Proof.
  unfold RelevanceScorer._score_position_match.
  destruct (_ || _); [intros [= <-]; split; [reflexivity | discriminate]|].
  destruct (str_lower job_title) as [jt|]; [|done]. rewrite bind_Ok.
  destruct (str_lower desired_role) as [dr|]; [|done]. rewrite bind_Ok.
  destruct (String.eqb jt dr);
    [intros [= <-]; split; [reflexivity | discriminate]|].
  destruct (contains dr jt);
    [intros [= <-]; split; [reflexivity | discriminate]|].
  destruct (contains jt dr);
    [intros [= <-]; split; [reflexivity | discriminate]|].
  set (job_words := list_to_set (String.words jt) : gset string).
  set (role_words := list_to_set (String.words dr) : gset string).
  destruct (bool_decide_reflect (job_words ∩ role_words = ∅)) as [|Hne];
    cbn [negb]; [intros [= <-]; split; [reflexivity | discriminate]|].
  intros [= <-].
  destruct (ratio_bounds (size (job_words ∩ role_words))
              (size job_words `max` size role_words)) as [Hlo Hhi].
  - assert (size (job_words ∩ role_words) ≠ 0%nat); [|lia].
    apply size_non_empty_iff. intros Hempty. apply Hne.
    by apply leibniz_equiv.
  - assert (size (job_words ∩ role_words) ≤ size job_words)%nat; [|lia].
    apply subseteq_size, intersection_subseteq_l.
  - split; lra.
Qed.

Lemma position_match_range_witness :
  0 < 0.7 * (of_nat 1 / of_nat 3) ∧ 0.7 * (of_nat 1 / of_nat 3) <= 1.
Proof.
  apply (position_match_range (PStr "Senior Data Engineer") (PStr "data scientist")).
  vm_compute. reflexivity.
Defined.

Lemma py_min_one_bounds y : 0 <= y → 0 <= py_min 1.0 y ∧ py_min 1.0 y <= 1.
Proof.
  intros Hy. unfold py_min. destruct (Qle_bool 1.0 y) eqn:E.
  - split; discriminate.
  - split; [exact Hy|].
    destruct (Qlt_le_dec y 1.0) as [Hlt|Hge]; [lra|].
    apply Qle_bool_iff in Hge. congruence.
Qed.

Lemma of_nat_nonneg n : 0 <= of_nat n.
Proof. unfold of_nat. change 0 with (inject_Z 0). rewrite <- Zle_Qle. lia. Qed.

(** X12. Whenever the skills scorer answers, its score lies in the unit
    interval. *)
Theorem skills_match_range (required_skills candidate_skills : pyval) (x : Q) :
  RelevanceScorer._score_skills_match required_skills candidate_skills = Ok x →
  0 <= x ∧ x <= 1.
Proof.
  unfold RelevanceScorer._score_skills_match.
  destruct (truthy required_skills); cbn [negb];
    [|intros [= <-]; split; discriminate].
  destruct (truthy candidate_skills); cbn [negb];
    [|intros [= <-]; split; discriminate].
  destruct (iter required_skills) as [required|]; [|done]. rewrite bind_Ok.
  destruct (iter candidate_skills) as [candidate|]; [|done]. rewrite bind_Ok.
  intros [= <-]. apply py_min_one_bounds.
  unfold Qdiv. apply Qmult_le_0_compat; [apply of_nat_nonneg|].
  apply Qinv_le_0_compat, of_nat_nonneg.
Qed.

Lemma skills_match_range_witness : 0 <= py_min 1.0 (of_nat 1 / of_nat 2)
                                   ∧ py_min 1.0 (of_nat 1 / of_nat 2) <= 1.
Proof.
  apply (skills_match_range (PList ["Python"; "Go"]) (PList ["python"; "SQL"])).
  vm_compute. reflexivity.
Defined.

(** Case analysis along the branches of a scorer. *)
Ltac scorer_cases :=
  repeat (cbv beta iota;
          match goal with
          | |- Ok _ = Ok _ → _ => intros [= <-]; try tauto
          | |- Raise _ = Ok _ → _ => discriminate
          | |- context [Ok ?a ≫= ?f] => rewrite (bind_Ok a f)
          | |- context [Raise ?e ≫= ?f] => rewrite (bind_Raise e f)
          | |- context [str_lower ?v] => destruct (str_lower v)
          | |- context [if ?b then _ else _] => destruct b
          end).

(** X13. Whenever the location scorer answers, its score is one of 0.4,
    0.5, 0.7, 0.8 and 1.0. *)
Theorem location_match_values (job_location preferred_location work_mode : pyval)
    (x : Q) :
  RelevanceScorer._score_location_match job_location preferred_location work_mode
    = Ok x →
  x = 0.4 ∨ x = 0.5 ∨ x = 0.7 ∨ x = 0.8 ∨ x = 1.0.
Proof. unfold RelevanceScorer._score_location_match. scorer_cases. Qed.

Lemma location_match_values_witness :
  0.8 = 0.4 ∨ 0.8 = 0.5 ∨ 0.8 = 0.7 ∨ 0.8 = 0.8 ∨ 0.8 = 1.0.
Proof.
  apply (location_match_values (PStr "Albany, NY") (PStr "New York, NY")
           (PStr "On-site")).
  vm_compute. reflexivity.
Defined.

Lemma contains_empty s : contains "" s = true.
Proof. by destruct s. Qed.

Lemma truthy_PStr s : s ≠ "" → truthy (PStr s) = true.
Proof. intros Hs. cbn. by rewrite (proj2 (String.eqb_neq _ _)). Qed.

(** X14. A preferred location with an empty part between its commas (a
    trailing comma, say) makes every located job a match: with the
    modes Any, On-site and Hybrid the score is 0.8 or 1.0, never the low
    0.4. *)
Theorem location_match_empty_part (job_location preferred_location work_mode : string) :
  job_location ≠ "" → preferred_location ≠ "" →
  work_mode = "Any" ∨ work_mode = "On-site" ∨ work_mode = "Hybrid" →
  "" ∈ (strip <$> split "," (lower preferred_location)) →
  RelevanceScorer._score_location_match
    (PStr job_location) (PStr preferred_location) (PStr work_mode) = Ok 1.0
  ∨ RelevanceScorer._score_location_match
      (PStr job_location) (PStr preferred_location) (PStr work_mode) = Ok 0.8.
Proof.
  intros Hjl Hpl Hmode Hpart.
  assert (RelevanceScorer.any_part_in (lower preferred_location) (lower job_location)
          = true) as Hany.
  { unfold RelevanceScorer.any_part_in. apply existsb_exists.
    apply list_elem_of_fmap in Hpart as (part & Hstrip & Hin).
    exists part. split; [by apply list_elem_of_In|].
    rewrite <- Hstrip. apply contains_empty. }
  unfold RelevanceScorer._score_location_match.
  rewrite (truthy_PStr _ Hjl), (truthy_PStr _ Hpl). cbn [negb str_lower].
  rewrite !bind_Ok, Hany.
  destruct Hmode as [->|[->| ->]]; cbn [eq_str String.eqb Ascii.eqb Bool.eqb andb orb];
    rewrite ?bind_Ok; destruct (contains (lower preferred_location) _);
    rewrite ?bind_Ok; auto.
Qed.

Lemma location_match_empty_part_witness :
  RelevanceScorer._score_location_match
    (PStr "Austin, TX") (PStr "New York, ") (PStr "Any") = Ok 1.0
  ∨ RelevanceScorer._score_location_match
      (PStr "Austin, TX") (PStr "New York, ") (PStr "Any") = Ok 0.8.
Proof.
  apply location_match_empty_part; [done | done | by left |].
  vm_compute. apply list_elem_of_In. right. by left.
Defined.

(** X15. With the work mode Remote the preferred location is never
    consulted: a located job scores 1.0 when its location mentions
    "remote" and 0.4 otherwise, whatever the preference is. *)
Theorem location_match_remote_mode (job_location : string)
    (preferred_location : pyval) :
  job_location ≠ "" →
  RelevanceScorer._score_location_match
    (PStr job_location) preferred_location (PStr "Remote")
  = Ok (if contains "remote" (lower job_location) then 1.0 else 0.4).
Proof.
  intros Hjl. unfold RelevanceScorer._score_location_match.
  rewrite (truthy_PStr _ Hjl). cbn [negb str_lower]. rewrite bind_Ok.
  cbn [eq_str String.eqb Ascii.eqb Bool.eqb andb orb].
  destruct (contains "remote" _); reflexivity.
Qed.

Lemma location_match_remote_mode_witness :
  RelevanceScorer._score_location_match
    (PStr "New York, NY") (PStr "New York, NY") (PStr "Remote")
  = Ok (if contains "remote" (lower "New York, NY") then 1.0 else 0.4).
Proof. by apply location_match_remote_mode. Defined.

(** ** The detail-scoring stage keeps its jobs *)

Lemma relevance_score_one_job fmt_0f repr llm_invoke re_search_json_fence
    json_loads resume_dict preferences job sj :
  RelevanceScorer.score_one fmt_0f repr llm_invoke re_search_json_fence
    json_loads resume_dict preferences job = Ok sj →
  sj_job sj = job.
Proof.
  unfold RelevanceScorer.score_one.
  destruct (RelevanceScorer._score_job _ _ _ _ _ _ _ _) as [r|]; [|done].
  rewrite bind_Ok.
  destruct (RelevanceScorer.item "total_score" _); [|done]. rewrite bind_Ok.
  destruct (RelevanceScorer.item "score_breakdown" _); [|done]. rewrite bind_Ok.
  destruct (RelevanceScorer.item "match_details" _); [|done]. rewrite bind_Ok.
  by intros [= <-].
Qed.

Lemma Forall2_fmap_eq {A B} (g : B → A) (l : list A) (k : list B) :
  Forall2 (λ a b, g b = a) l k → g <$> k = l.
Proof. induction 1 as [|a b l k Hab _ IH]; [done|]. cbn. by rewrite Hab, IH. Qed.

(** X16. When the detail-scoring stage returns, it has marked the analysis
    complete, left the error log, the job list, the profile and the
    cursor as they were, and stored either nothing or one scored record
    for each job of the list, the job inside unchanged. *)
Theorem relevance_process_keeps_jobs
    (fmt_0f : Q → string) (repr : pyval → string)
    (llm_invoke : gmap string pyval → gmap string pyval → gmap string pyval → string)
    (re_search_json_fence : string → option string)
    (json_loads : string → option ScoreResult)
    (state state' : State) :
  RelevanceScorer.process fmt_0f repr llm_invoke re_search_json_fence
                          json_loads state = Ok state' →
  analysis_complete state' = Some true
  ∧ error_log state' = error_log state
  ∧ job_listings state' = job_listings state
  ∧ resume_data state' = resume_data state
  ∧ next_step state' = next_step state
  ∧ ∃ scored,
      scored_listings state' = Some scored
      ∧ (scored = [] ∨ sj_job <$> scored ≡ₚ default [] (job_listings state)).
Proof.
  unfold RelevanceScorer.process.
  destruct (_ || _).
  - intros [= <-]. repeat (split; [reflexivity|]). exists []. by split; [|left].
  - destruct (mapM _ _) as [scored|] eqn:E; [|done]. rewrite bind_Ok.
    intros [= <-]. repeat (split; [reflexivity|]).
    exists (RelevanceScorer.sort_scored scored). split; [reflexivity|]. right.
    unfold RelevanceScorer.sort_scored. rewrite sort_desc_perm.
    apply mapM_result_Ok in E.
    rewrite (Forall2_fmap_eq sj_job (default [] (job_listings state)) scored); [done|].
    induction E as [|job sj jobs sjs Hsj _ IH]; constructor; [|exact IH].
    by eapply relevance_score_one_job.
Qed.

Definition scored_reply : ScoreResult :=
  {| total_score := Some 82.5; score_breakdown := Some ∅;
     match_details := Some ∅ |}.

Definition state_with_jobs : State :=
  {| resume_data := Some profile_example; job_listings := Some [job_a; job_b];
     scored_listings := None; feedback := None; error_log := Some [];
     resume_parsed := Some true; jobs_scraped := Some true;
     analysis_complete := None; feedback_processed := None;
     notification_sent := None; current_phase := Some "relevance_scorer";
     next_step := Some "relevance_scorer"; results_summary := None |}.

Definition state_with_scores : State :=
  set_scored_listings
    (RelevanceScorer.sort_scored
       [ {| sj_job := job_a; sj_total_score := 82.5;
            sj_score_breakdown := ∅; sj_match_details := ∅ |};
         {| sj_job := job_b; sj_total_score := 82.5;
            sj_score_breakdown := ∅; sj_match_details := ∅ |} ])
    (set_analysis_complete true state_with_jobs).

Lemma relevance_process_keeps_jobs_witness :
  analysis_complete state_with_scores = Some true
  ∧ error_log state_with_scores = error_log state_with_jobs
  ∧ job_listings state_with_scores = job_listings state_with_jobs
  ∧ resume_data state_with_scores = resume_data state_with_jobs
  ∧ next_step state_with_scores = next_step state_with_jobs
  ∧ ∃ scored,
      scored_listings state_with_scores = Some scored
      ∧ (scored = [] ∨ sj_job <$> scored ≡ₚ default [] (job_listings state_with_jobs)).
Proof.
  apply (relevance_process_keeps_jobs (λ _, "") (λ _, "") (λ _ _ _, "{}")
           (λ _, None) (λ _, Some scored_reply)).
  reflexivity.
Defined.

(** ** The coordinator over several rounds *)

(** X17. Two passes of the coordinator in a row: the phase entered by the
    second is the step chosen by the first, and the choice is repeated. *)
Theorem manager_process_twice (state : State) :
  let once := Manager.process state in
  let twice := Manager.process once in
  current_phase twice = next_step once
  ∧ next_step twice = next_step once.
Proof.
  destruct state as [rd jl sl fb [[|e log]|] [[]|] [[]|] [[]|] [[]|] [[]|] cp ns rs];
    split; reflexivity.
Qed.

(** The position, in the coordinator's order, of the first stage whose
    flag is unset; 5 when all are set. *)
Definition first_unset_index (s : State) : nat :=
  if negb (flag (resume_parsed s)) then 0
  else if negb (flag (jobs_scraped s)) then 1
  else if negb (flag (analysis_complete s)) then 2
  else if negb (flag (feedback_processed s)) then 3
  else if negb (flag (notification_sent s)) then 4
  else 5.

Section Rounds.
(** The stage that the cursor names, run to success: it sets its own
    flag, unsets none and logs no error. *)
Variable stage : State → State.
Hypothesis stage_keeps_flags : ∀ s,
  (flag (resume_parsed s) = true → flag (resume_parsed (stage s)) = true)
  ∧ (flag (jobs_scraped s) = true → flag (jobs_scraped (stage s)) = true)
  ∧ (flag (analysis_complete s) = true → flag (analysis_complete (stage s)) = true)
  ∧ (flag (feedback_processed s) = true → flag (feedback_processed (stage s)) = true)
  ∧ (flag (notification_sent s) = true → flag (notification_sent (stage s)) = true).
Hypothesis stage_sets_its_flag : ∀ s,
  (next_step s = Some "resume_parser" → flag (resume_parsed (stage s)) = true)
  ∧ (next_step s = Some "job_scraper" → flag (jobs_scraped (stage s)) = true)
  ∧ (next_step s = Some "relevance_scorer" →
     flag (analysis_complete (stage s)) = true)
  ∧ (next_step s = Some "feedback_refiner" →
     flag (feedback_processed (stage s)) = true)
  ∧ (next_step s = Some "notification" → flag (notification_sent (stage s)) = true).
Hypothesis stage_logs_nothing : ∀ s,
  Manager.has_errors s = false → Manager.has_errors (stage s) = false.

(** One round: the coordinator, then the stage it chose. *)
Definition round (s : State) : State := stage (Manager.process s).

Lemma manager_process_flags s :
  let s' := Manager.process s in
  resume_parsed s' = resume_parsed s ∧ jobs_scraped s' = jobs_scraped s
  ∧ analysis_complete s' = analysis_complete s
  ∧ feedback_processed s' = feedback_processed s
  ∧ notification_sent s' = notification_sent s
  ∧ Manager.has_errors s' = Manager.has_errors s.
Proof.
  unfold Manager.process.
  destruct (determine_next_step_frame
              (set_current_phase (default "unknown" (next_step s)) s)) as [step ->].
  repeat split.
Qed.

Lemma manager_process_step s :
  Manager.has_errors s = false →
  next_step (Manager.process s) =
    Some (match first_unset_index s with
          | 0 => "resume_parser" | 1 => "job_scraper" | 2 => "relevance_scorer"
          | 3 => "feedback_refiner" | 4 => "notification" | _ => "complete"
          end)%nat.
Proof.
  unfold Manager.process, Manager.determine_next_step, first_unset_index.
  intros He.
  assert (Manager.has_errors
            (set_current_phase (default "unknown" (next_step s)) s) = false) as ->
    by exact He.
  cbn [set_current_phase resume_parsed jobs_scraped analysis_complete
       feedback_processed notification_sent].
  repeat (destruct (negb _); [reflexivity|]). reflexivity.
Qed.

Lemma round_progress s :
  Manager.has_errors s = false →
  Manager.has_errors (round s) = false
  ∧ (first_unset_index s < first_unset_index (round s)
     ∨ first_unset_index (round s) = 5)%nat.
Proof.
  intros He. unfold round.
  destruct (manager_process_flags s) as (F1 & F2 & F3 & F4 & F5 & F6).
  cbv zeta in *.
  split; [apply stage_logs_nothing; by rewrite F6|].
  pose proof (manager_process_step s He) as Hstep.
  destruct (stage_keeps_flags (Manager.process s)) as (K1 & K2 & K3 & K4 & K5).
  destruct (stage_sets_its_flag (Manager.process s)) as (S1 & S2 & S3 & S4 & S5).
  rewrite F1 in K1. rewrite F2 in K2. rewrite F3 in K3. rewrite F4 in K4.
  rewrite F5 in K5.
  unfold first_unset_index in *.
  destruct (flag (resume_parsed s)); cbn [negb] in *;
    [specialize (K1 eq_refl); rewrite K1 | specialize (S1 Hstep); rewrite S1];
    cbn [negb].
  2: { repeat (destruct (negb _); [left; lia|]). right. reflexivity. }
  destruct (flag (jobs_scraped s)); cbn [negb] in *;
    [specialize (K2 eq_refl); rewrite K2 | specialize (S2 Hstep); rewrite S2];
    cbn [negb].
  2: { repeat (destruct (negb _); [left; lia|]). right. reflexivity. }
  destruct (flag (analysis_complete s)); cbn [negb] in *;
    [specialize (K3 eq_refl); rewrite K3 | specialize (S3 Hstep); rewrite S3];
    cbn [negb].
  2: { repeat (destruct (negb _); [left; lia|]). right. reflexivity. }
  destruct (flag (feedback_processed s)); cbn [negb] in *;
    [specialize (K4 eq_refl); rewrite K4 | specialize (S4 Hstep); rewrite S4];
    cbn [negb].
  2: { repeat (destruct (negb _); [left; lia|]). right. reflexivity. }
  destruct (flag (notification_sent s)); cbn [negb] in *;
    [specialize (K5 eq_refl); rewrite K5 | specialize (S5 Hstep); rewrite S5];
    cbn [negb]; by right.
Qed.

Lemma first_unset_index_le s : (first_unset_index s ≤ 5)%nat.
Proof.
  unfold first_unset_index. repeat (destruct (negb _); [lia|]). lia.
Qed.

Lemma rounds_progress k s :
  Manager.has_errors s = false →
  Manager.has_errors (Nat.iter k round s) = false
  ∧ (Nat.min 5 (first_unset_index s + k) ≤ first_unset_index (Nat.iter k round s))%nat.
Proof.
  intros He. induction k as [|k [IHe IHk]].
  - change (Nat.iter 0 round s) with s. split; [done|]. lia.
  - change (Nat.iter (S k) round s) with (round (Nat.iter k round s)).
    destruct (round_progress _ IHe) as [He' Hk]. split; [exact He'|]. lia.
Qed.
End Rounds.

(** X18. Stages that succeed bring the workflow to its end: if the stage
    named by the cursor sets its own completion flag, unsets no flag and
    logs no error, then from any state without logged errors five rounds
    of coordinator and stage leave the coordinator at ["complete"]. *)
Theorem workflow_completes_in_five_rounds (stage : State → State) (s : State) :
  (∀ s,
     (flag (resume_parsed s) = true → flag (resume_parsed (stage s)) = true)
     ∧ (flag (jobs_scraped s) = true → flag (jobs_scraped (stage s)) = true)
     ∧ (flag (analysis_complete s) = true →
        flag (analysis_complete (stage s)) = true)
     ∧ (flag (feedback_processed s) = true →
        flag (feedback_processed (stage s)) = true)
     ∧ (flag (notification_sent s) = true →
        flag (notification_sent (stage s)) = true)) →
  (∀ s,
     (next_step s = Some "resume_parser" → flag (resume_parsed (stage s)) = true)
     ∧ (next_step s = Some "job_scraper" → flag (jobs_scraped (stage s)) = true)
     ∧ (next_step s = Some "relevance_scorer" →
        flag (analysis_complete (stage s)) = true)
     ∧ (next_step s = Some "feedback_refiner" →
        flag (feedback_processed (stage s)) = true)
     ∧ (next_step s = Some "notification" →
        flag (notification_sent (stage s)) = true)) →
  (∀ s, Manager.has_errors s = false → Manager.has_errors (stage s) = false) →
  Manager.has_errors s = false →
  next_step (Manager.process (Nat.iter 5 (round stage) s)) = Some "complete".
Proof.
  intros Hkeep Hset Hlog He.
  destruct (rounds_progress stage Hkeep Hset Hlog 5 s He) as [He5 H5].
  rewrite manager_process_step by exact He5.
  pose proof (first_unset_index_le (Nat.iter 5 (round stage) s)).
  pose proof (first_unset_index_le s).
  assert (first_unset_index (Nat.iter 5 (round stage) s) = 5%nat) as -> by lia.
  reflexivity.
Qed.

(** The flag that each agent's [process] sets when it succeeds. *)
Definition mark_done (s : State) : State :=
  let step := default "" (next_step s) in
  {| resume_data := resume_data s; job_listings := job_listings s;
     scored_listings := scored_listings s; feedback := feedback s;
     error_log := error_log s;
     resume_parsed :=
       if String.eqb step "resume_parser" then Some true else resume_parsed s;
     jobs_scraped :=
       if String.eqb step "job_scraper" then Some true else jobs_scraped s;
     analysis_complete :=
       if String.eqb step "relevance_scorer" then Some true
       else analysis_complete s;
     feedback_processed :=
       if String.eqb step "feedback_refiner" then Some true
       else feedback_processed s;
     notification_sent :=
       if String.eqb step "notification" then Some true else notification_sent s;
     current_phase := current_phase s; next_step := next_step s;
     results_summary := results_summary s |}.

Lemma workflow_completes_in_five_rounds_witness :
  next_step (Manager.process (Nat.iter 5 (round mark_done) empty_state))
  = Some "complete".
Proof.
  apply (workflow_completes_in_five_rounds mark_done empty_state).
  - intros s. unfold mark_done. cbn.
    repeat split; intros H; by destruct (String.eqb _ _).
  - intros s. unfold mark_done.
    repeat split; intros ->; reflexivity.
  - intros s. done.
  - reflexivity.
Defined.

(** ** Counting the required skills *)

Lemma elem_of_tally k n l : (k, n) ∈ tally l ↔ k ∈ l ∧ n = mentions k l.
Proof.
  unfold tally. rewrite list_elem_of_fmap. split.
  - intros (k' & [= -> ->] & Hk). by rewrite elem_of_first_mentions in Hk.
  - intros [Hk ->]. exists k. by rewrite elem_of_first_mentions.
Qed.

Lemma tally_keys l : (tally l).*1 = first_mentions l.
Proof.
  unfold tally. rewrite <- list_fmap_compose. by rewrite list_fmap_id.
Qed.

Lemma mentions_present k l : k ∈ l → (1 ≤ mentions k l)%nat.
Proof.
  intros Hk. unfold mentions.
  assert (k ∈ filter (λ y, y = k) l) as Hin by (by apply list_elem_of_filter).
  destruct (filter (λ y, y = k) l); [by apply elem_of_nil in Hin | simpl; lia].
Qed.

Lemma sum_counts_bump x d :
  sum_list (Notification.bump x d).*2 = S (sum_list d.*2).
Proof.
  induction d as [|[k n] d IH]; [done|].
  cbn [Notification.bump]. destruct (String.eqb k x); cbn in *; lia.
Qed.

Lemma sum_counts_tally l : sum_list (tally l).*2 = length l.
Proof.
  induction l as [|x l IH] using rev_ind; [done|].
  rewrite <- bump_tally, sum_counts_bump, IH, length_app. simpl. lia.
Qed.

(** X19. The ranking of required skills lists every mentioned skill once,
    with the number of times it is mentioned, and nothing else; its
    counts are positive and add up to the number of mentions. *)
Theorem extract_common_skills_counts (jobs : list (gmap string pyval))
    (skills : list string) :
  mentioned_skills jobs = Ok skills →
  ∃ ranking,
    Notification._extract_common_skills jobs = Ok ranking
    ∧ NoDup ranking.*1
    ∧ (∀ k n, (k, n) ∈ ranking ↔ k ∈ skills ∧ n = mentions k skills)
    ∧ Forall (λ p, 1 ≤ p.2)%nat ranking
    ∧ sum_list ranking.*2 = length skills.
Proof.
  intros Hskills. rewrite extract_common_skills_tally, Hskills, bind_Ok.
  eexists. split; [reflexivity|].
  pose proof (sort_desc_perm Nat.leb snd (tally skills)) as Hperm.
  split; [|split; [|split]].
  - rewrite Hperm, tally_keys. apply NoDup_first_mentions.
  - intros k n. rewrite Hperm. apply elem_of_tally.
  - rewrite Hperm. apply Forall_forall. intros [k n] [Hk ->]%elem_of_tally.
    by apply mentions_present.
  - rewrite Hperm. apply sum_counts_tally.
Qed.

Lemma extract_common_skills_counts_witness :
  ∃ ranking,
    Notification._extract_common_skills (sj_job <$> two_listings) = Ok ranking
    ∧ NoDup ranking.*1
    ∧ (∀ k n, (k, n) ∈ ranking
              ↔ k ∈ ["SQL"; "Python"; "Go"; "Python"]
                ∧ n = mentions k ["SQL"; "Python"; "Go"; "Python"])
    ∧ Forall (λ p, 1 ≤ p.2)%nat ranking
    ∧ sum_list ranking.*2 = length ["SQL"; "Python"; "Go"; "Python"].
Proof.
  apply (extract_common_skills_counts (sj_job <$> two_listings)).
  vm_compute. reflexivity.
Defined.

(** ** The notification stage *)

Lemma extract_common_skills_is_ok jobs :
  is_ok (Notification._extract_common_skills jobs) = is_ok (mentioned_skills jobs).
Proof.
  rewrite extract_common_skills_tally. by destruct (mentioned_skills jobs).
Qed.

(** X20. The notification stage fails exactly when the required skills of
    some scored listing cannot be iterated.  When it returns it has set
    [notification_sent] and moved the cursor to ["complete"], it has
    written "No matching jobs found." for an empty list, and it has left
    the listings, the error log and the other flags alone. *)
Theorem notification_process
    (fmt_1f : Q → string) (repr : pyval → string) (timestamp : string)
    (state : State) :
  is_ok (Summary.process fmt_1f repr timestamp state)
    = is_ok (mentioned_skills (sj_job <$> default [] (scored_listings state)))
  ∧ ∀ state',
      Summary.process fmt_1f repr timestamp state = Ok state' →
      notification_sent state' = Some true
      ∧ next_step state' = Some "complete"
      ∧ (default [] (scored_listings state) = [] →
         results_summary state' = Some "No matching jobs found.")
      ∧ scored_listings state' = scored_listings state
      ∧ error_log state' = error_log state
      ∧ resume_parsed state' = resume_parsed state
      ∧ jobs_scraped state' = jobs_scraped state
      ∧ analysis_complete state' = analysis_complete state
      ∧ feedback_processed state' = feedback_processed state.
Proof.
  unfold Summary.process, Summary._format_results_summary. split.
  - destruct (default [] (scored_listings state)) as [|sj l] eqn:E; [done|].
    rewrite <- extract_common_skills_is_ok.
    by destruct (Notification._extract_common_skills _).
  - intros state'.
    destruct (default [] (scored_listings state)) as [|sj l] eqn:E.
    + rewrite bind_Ok. intros [= <-]. repeat split; reflexivity.
    + destruct (Notification._extract_common_skills _); [|done].
      rewrite !bind_Ok. intros [= <-]. repeat split; try reflexivity. done.
Qed.

(** ** The actor: input, standardization, scoring, results *)

Lemma truthy_get_present (d : gmap string pyval) k :
  truthy (get d k) = true → is_Some (d !! k).
Proof. unfold get. destruct (d !! k); [eauto | done]. Qed.

(** X21. The input passes validation exactly when the two credentials and
    the resume text are all present and non-empty; a validated input
    therefore has the three keys that [run] subscripts. *)
Theorem validate_input_accepts (input_data : gmap string pyval) :
  (Actor.validate_input input_data = None ↔
     truthy (get input_data "apifyApiToken") = true
     ∧ truthy (get input_data "openAiApiKey") = true
     ∧ truthy (get input_data "resumeText") = true)
  ∧ (Actor.validate_input input_data = None →
     is_Some (input_data !! "apifyApiToken")
     ∧ is_Some (input_data !! "openAiApiKey")
     ∧ is_Some (input_data !! "resumeText")).
Proof.
  assert (Actor.validate_input input_data = None ↔
     truthy (get input_data "apifyApiToken") = true
     ∧ truthy (get input_data "openAiApiKey") = true
     ∧ truthy (get input_data "resumeText") = true) as Hiff.
  { unfold Actor.validate_input.
    destruct (truthy (get input_data "apifyApiToken")),
             (truthy (get input_data "openAiApiKey")),
             (truthy (get input_data "resumeText")); cbn; split;
      try done; intros (? & ? & ?); done. }
  split; [exact Hiff|].
  intros (H1 & H2 & H3)%Hiff. repeat split; by apply truthy_get_present.
Qed.



Lemma mapM_result_all_Ok {A B} (f : A → result B) (l : list A) :
  (∀ a, a ∈ l → is_ok (f a) = true) → ∃ k, mapM f l = Ok k.
Proof.
  induction l as [|a l IH]; intros Hok; [by exists []|]. cbn [mapM].
  pose proof (Hok a (list_elem_of_here _ _)) as Ha.
  destruct (f a) as [b|]; [|done]. rewrite bind_Ok.
  destruct IH as [k ->]; [intros a' Ha'; apply Hok; by right|].
  rewrite bind_Ok. by eexists.
Qed.

Lemma mapM_result_some_Raise {A B} (f : A → result B) (l : list A) a :
  a ∈ l → is_ok (f a) = false → is_ok (mapM f l) = false.
Proof.
  induction l as [|a' l IH]; [by intros ?%elem_of_nil|].
  intros [->|Ha]%elem_of_cons Hraise; cbn [mapM].
  - by destruct (f a').
  - destruct (f a'); [|done]. rewrite bind_Ok.
    specialize (IH Ha Hraise). by destruct (mapM f l).
Qed.

Lemma score_one_is_ok chat_completion json_loads charged job :
  is_ok (Main.score_one chat_completion json_loads charged job)
  = is_ok (chat_completion job).
Proof.
  unfold Main.score_one. destruct (chat_completion job); [|done].
  rewrite bind_Ok. destruct (Main.try_score _ _ _); [|done].
  by destruct (charged job).
Qed.

(** A job that ends with two records: it was scored in detail and the
    charge event for it was refused. *)
Definition scored_twice (chat_completion : gmap string pyval → result string)
    (json_loads : string → option Main.Scores)
    (charged : gmap string pyval → bool) (job : gmap string pyval) : bool :=
  match chat_completion job with
  | Ok content =>
      is_ok (Main.try_score json_loads job content) && negb (charged job)
  | Raise _ => false
  end.

Lemma score_one_records chat_completion json_loads charged job appended :
  Main.score_one chat_completion json_loads charged job = Ok appended →
  Main.mj_job <$> appended
  = job :: (if scored_twice chat_completion json_loads charged job
            then [job] else []).
Proof.
  unfold Main.score_one, scored_twice.
  destruct (chat_completion job) as [content|]; [|done]. rewrite bind_Ok.
  destruct (Main.try_score json_loads job content) as [mj|] eqn:E.
  - apply try_score_job in E.
    destruct (charged job); intros [= <-]; cbn; by rewrite E.
  - by intros [= <-].
Qed.

Lemma score_all_records chat_completion json_loads charged jobs appended :
  mapM (Main.score_one chat_completion json_loads charged) jobs = Ok appended →
  Main.mj_job <$> concat appended
  ≡ₚ jobs ++ List.filter (scored_twice chat_completion json_loads charged) jobs.
Proof.
  intros E%mapM_result_Ok.
  induction E as [|job l jobs ls Hl _ IH]; [done|].
  cbn [concat List.filter]. rewrite fmap_app, IH, (score_one_records _ _ _ _ _ Hl).
  destruct (scored_twice _ _ _ job); cbn [app].
  - constructor. apply Permutation_middle.
  - done.
Qed.

Lemma filter_none {A} (f : A → bool) (l : list A) :
  (∀ x, x ∈ l → f x = false) → List.filter f l = [].
Proof.
  induction l as [|a l IH]; intros H; [done|]. cbn [List.filter].
  rewrite (H a) by left. apply IH. intros x Hx. apply H. by right.
Qed.

(** X23. Scoring is per job or not at all.  When the completion call
    returns for every job, every job is scored, whatever the answers
    were: once, or twice when it was scored in detail and the charge
    event pushed for it was refused, the second record being the basic
    one; so each job is scored exactly once when every charge is taken.
    When the completion call raises for some job, no job is scored. *)
Theorem score_jobs_all_or_nothing
    (chat_completion : gmap string pyval → result string)
    (json_loads : string → option Main.Scores)
    (charged : gmap string pyval → bool)
    (jobs : list (gmap string pyval)) :
  ((∀ job, job ∈ jobs → is_ok (chat_completion job) = true) →
   Main.mj_job <$> Main.score_jobs chat_completion json_loads charged jobs
     ≡ₚ jobs ++ List.filter (scored_twice chat_completion json_loads charged) jobs
   ∧ ((∀ job, job ∈ jobs → charged job = true) →
      Main.mj_job <$> Main.score_jobs chat_completion json_loads charged jobs
        ≡ₚ jobs))
  ∧ (∀ job, job ∈ jobs → is_ok (chat_completion job) = false →
     Main.score_jobs chat_completion json_loads charged jobs = []).
Proof.
  unfold Main.score_jobs. split.
  - intros Hok.
    destruct (mapM_result_all_Ok
                (Main.score_one chat_completion json_loads charged) jobs)
      as [appended E].
    { intros job Hjob. rewrite score_one_is_ok. by apply Hok. }
    rewrite E. unfold Main.sort_scored. rewrite sort_desc_perm.
    pose proof (score_all_records _ _ _ _ _ E) as Hall.
    split; [exact Hall|].
    intros Hcharged. rewrite Hall, filter_none; [by rewrite app_nil_r|].
    intros job Hjob. unfold scored_twice. rewrite (Hcharged job Hjob).
    destruct (chat_completion job); [|done]. apply andb_false_r.
  - intros job Hjob Hraise.
    pose proof (mapM_result_some_Raise
                  (Main.score_one chat_completion json_loads charged)
                  jobs job Hjob) as H.
    rewrite score_one_is_ok in H. specialize (H Hraise).
    by destruct (mapM _ jobs).
Qed.

(** A job whose answer is read and whose charge is refused is listed
    twice, with its detailed score and with the basic one. *)
Example refused_charge_scores_twice :
  Main.mj_total_score <$>
    Main.score_jobs (λ _, Ok "answer")
      (λ _, Some {| Main.sc_skills_match := None;
                    Main.sc_experience_match := None;
                    Main.sc_location_match := None;
                    Main.sc_company_fit := None;
                    Main.sc_total_score := Some (PNum 82.5) |})
      (λ _, false) [job_a]
  = [82.5; 70].
Proof. vm_compute. reflexivity. Qed.

(** A category score that is absent, or a number between 0 and 100. *)
Definition percentage_or_absent (cat : option pyval) : Prop :=
  match cat with
  | None => True
  | Some (PNum x) => 0 <= x ∧ x <= 100
  | Some _ => False
  end.

(** X24. A total computed from the category scores stays a percentage:
    when the answer carries no numeric total and every category score it
    carries is a number between 0 and 100, the total is between 0 and
    100. *)
Theorem ensure_total_percentage (scores : Main.Scores) :
  match Main.sc_total_score scores with
  | Some (PNum _) => False
  | _ => True
  end →
  percentage_or_absent (Main.sc_skills_match scores) →
  percentage_or_absent (Main.sc_experience_match scores) →
  percentage_or_absent (Main.sc_location_match scores) →
  percentage_or_absent (Main.sc_company_fit scores) →
  ∃ t, Main.ensure_total scores = Ok t ∧ 0 <= t ∧ t <= 100.
Proof.
  intros Htotal H1 H2 H3 H4. unfold Main.ensure_total.
  assert (∀ k, (match Main.sc_total_score scores with
                | Some (PNum t) => Ok t
                | _ => k
                end) = k) as -> by (intros; by destruct (Main.sc_total_score scores) as [[]|]).
  cbv zeta. unfold Main.add_category.
  assert (Settings.FINAL_SCORING_WEIGHTS !! "skills_match" = Some 0.40) as -> by reflexivity.
  assert (Settings.FINAL_SCORING_WEIGHTS !! "experience_match" = Some 0.25) as -> by reflexivity.
  assert (Settings.FINAL_SCORING_WEIGHTS !! "location_match" = Some 0.20) as -> by reflexivity.
  assert (Settings.FINAL_SCORING_WEIGHTS !! "company_fit" = Some 0.15) as -> by reflexivity.
  cbn [default from_option id].
  destruct (Main.sc_skills_match scores) as [[| |a| |]|]; try done;
  destruct (Main.sc_experience_match scores) as [[| |b| |]|]; try done;
  destruct (Main.sc_location_match scores) as [[| |c| |]|]; try done;
  destruct (Main.sc_company_fit scores) as [[| |d| |]|]; try done;
  cbn in *; eexists; (split; [reflexivity|]); split; lra.
Qed.

Lemma ensure_total_percentage_witness :
  ∃ t, Main.ensure_total
         {| Main.sc_skills_match := Some (PNum 80);
            Main.sc_experience_match := Some (PNum 60);
            Main.sc_location_match := None;
            Main.sc_company_fit := Some (PNum 100);
            Main.sc_total_score := Some (PStr "n/a") |} = Ok t
       ∧ 0 <= t ∧ t <= 100.
Proof.
  apply ensure_total_percentage; cbn; try done; split; discriminate.
Defined.

(** A description that [format_results] can search: empty, or a string. *)
Definition searchable (job : Main.MatchedJob) : bool :=
  match py_or (get_or (Main.mj_job job) "description" (PStr ""))
              (get_or (Main.mj_job job) "jobDescription" (PStr "")) with
  | PStr _ => true
  | d => negb (truthy d)
  end.

Lemma extract_skills_is_ok scored_jobs all_skills :
  is_ok (Main.extract_skills scored_jobs all_skills) = forallb searchable scored_jobs.
Proof.
  revert all_skills. induction scored_jobs as [|job rest IH]; intros all_skills;
    [done|].
  cbn [Main.extract_skills forallb]. unfold searchable at 1.
  destruct (py_or _ _) as [|d|x|t|l]; cbn [truthy negb andb].
  - apply IH.
  - destruct (negb _); apply IH.
  - destruct (negb (Qeq_bool x 0)); cbn [negb andb]; [done | apply IH].
  - done.
  - destruct l; cbn [negb andb]; [apply IH | done].
Qed.

(** The exact mean of the total scores; 0 for no job. *)
Definition mean_score (scored_jobs : list Main.MatchedJob) : Q :=
  if (0 <? length scored_jobs)%nat
  then foldr Qplus 0 (Main.mj_total_score <$> scored_jobs)
       / of_nat (length scored_jobs)
  else 0.

Lemma of_nat_S (n : nat) : of_nat (S n) == of_nat n + 1.
Proof.
  unfold of_nat. rewrite Nat2Z.inj_succ, <- Z.add_1_r, inject_Z_plus. reflexivity.
Qed.

Lemma sum_percentages (l : list Q) :
  Forall (λ x, 0 <= x ∧ x <= 100) l →
  0 <= foldr Qplus 0 l ∧ foldr Qplus 0 l <= 100 * of_nat (length l).
Proof.
  induction 1 as [|x l [Hx0 Hx100] _ [IH0 IH100]]; cbn [foldr length].
  - split; [apply Qle_refl | vm_compute; discriminate].
  - rewrite of_nat_S. split; lra.
Qed.

Lemma mean_percentage (scored_jobs : list Main.MatchedJob) :
  Forall (λ x, 0 <= x ∧ x <= 100) (Main.mj_total_score <$> scored_jobs) →
  0 <= mean_score scored_jobs ∧ mean_score scored_jobs <= 100.
Proof.
  intros [H0 H100]%sum_percentages. unfold mean_score.
  rewrite length_fmap in H100.
  destruct scored_jobs as [|job rest]; [split; vm_compute; discriminate|].
  change (0 <? length (job :: rest))%nat with true. cbv iota.
  assert (0 < of_nat (length (job :: rest))) as Hpos.
  { cbn [length]. rewrite of_nat_S. pose proof (of_nat_nonneg (length rest)). lra. }
  split.
  - apply Qle_shift_div_l; [exact Hpos|]. lra.
  - apply Qle_shift_div_r; [exact Hpos|]. lra.
Qed.

(** X25. The statistics count the scored jobs only while every
    description can be searched.  Then the count is the number of scored
    jobs, the skills are listed and an average is reported: 0 for no
    job, and for total scores between 0 and 100 a value between 0 and
    100 within a tenth of their mean.  One description that is neither
    empty nor a string, and the statistics report no jobs at all. *)
Theorem statistics_count_or_fallback (scored_jobs : list Main.MatchedJob) :
  (forallb searchable scored_jobs = true →
   Main.totalJobsFound (Main.statistics scored_jobs) = length scored_jobs
   ∧ is_Some (Main.topSkillsRequested (Main.statistics scored_jobs))
   ∧ ∃ average,
       Main.averageMatchScore (Main.statistics scored_jobs) = Some average
       ∧ (scored_jobs = [] → average == 0)
       ∧ (Forall (λ x, 0 <= x ∧ x <= 100)
            (Main.mj_total_score <$> scored_jobs) →
          0 <= average ∧ average <= 100
          ∧ mean_score scored_jobs - 0.1 < average
          ∧ average < mean_score scored_jobs + 0.1))
  ∧ (forallb searchable scored_jobs = false →
     Main.statistics scored_jobs =
       {| Main.totalJobsFound := 0; Main.averageMatchScore := None;
          Main.topSkillsRequested := None |}).
Proof.
  unfold Main.statistics.
  pose proof (extract_skills_is_ok scored_jobs []) as H.
  destruct (Main.extract_skills scored_jobs []) as [found|]; cbn in H; rewrite <- H.
  - split; [|done]. intros _. cbn [Main.totalJobsFound Main.averageMatchScore
                                    Main.topSkillsRequested].
    split; [done|]. split; [by eexists|].
    fold (mean_score scored_jobs). eexists. split; [reflexivity|]. split.
    + intros ->. vm_compute. reflexivity.
    + intros Hscores. destruct (mean_percentage _ Hscores) as [H0 H100].
      destruct (round1_percentage _ H0 H100) as [R0 R100].
      destruct (round1_close (mean_score scored_jobs)) as [Clo Chi].
      repeat split; lra.
  - split; [done|]. reflexivity.
Qed.

Lemma score_jobs_sorted chat_completion json_loads charged jobs :
  StronglySorted (λ a b, Main.mj_total_score b <= Main.mj_total_score a)
    (Main.score_jobs chat_completion json_loads charged jobs).
Proof.
  unfold Main.score_jobs. destruct (mapM _ jobs) as [appended|]; [|constructor].
  by destruct (sort_desc_ranked Main.mj_total_score (concat appended))
    as (_ & ? & _).
Qed.

(** X26. The results of a run are its ten best scored jobs, or nothing:
    at most ten entries in descending order of score; when every
    description can be searched they carry the scores of the first ten
    scored jobs, and no scored job left out scores higher than a listed
    one; otherwise the list is empty. *)
Theorem results_are_the_ten_best
    (repr : pyval → string)
    (chat_completion : gmap string pyval → result string)
    (json_loads : string → option Main.Scores)
    (charged : gmap string pyval → bool)
    (jobs : list (gmap string pyval)) :
  let scored_jobs := Main.score_jobs chat_completion json_loads charged jobs in
  let results := Actor.reported_results repr scored_jobs in
  (length results ≤ 10)%nat
  ∧ StronglySorted (λ x y, y <= x) (Actor.matchScore <$> results)
  ∧ (forallb searchable scored_jobs = true →
     Actor.matchScore <$> results = Main.mj_total_score <$> take 10 scored_jobs
     ∧ ∀ listed left_out,
         listed ∈ take 10 scored_jobs → left_out ∈ drop 10 scored_jobs →
         Main.mj_total_score left_out <= Main.mj_total_score listed)
  ∧ (forallb searchable scored_jobs = false → results = []).
Proof.
  intros scored_jobs results. unfold results, Actor.reported_results.
  pose proof (extract_skills_is_ok scored_jobs []) as Hok.
  destruct (Main.extract_skills scored_jobs []) as [found|]; cbn in Hok;
    rewrite <- Hok.
  2: { split; [cbn; lia|]. split; [constructor|]. split; [done|]. done. }
  unfold Actor.results.
  destruct (sorted_take_drop _ 10 scored_jobs
              (score_jobs_sorted chat_completion json_loads charged jobs))
    as (Htake & Hcross & _).
  assert (Actor.matchScore <$> (Actor.result_entry repr <$> take 10 scored_jobs)
          = Main.mj_total_score <$> take 10 scored_jobs) as Hscores.
  { rewrite <- list_fmap_compose. by apply list_fmap_ext. }
  split; [rewrite length_fmap, length_take; lia|].
  split.
  { rewrite Hscores.
    eapply (StronglySorted_fmap Main.mj_total_score); [|exact Htake]. done. }
  split; [|done]. intros _. split; [exact Hscores | exact Hcross].
Qed.

(** ** The search keywords *)

Fixpoint has_char (c : ascii) (s : string) : bool :=
  match s with
  | EmptyString => false
  | String a s' => Ascii.eqb a c || has_char c s'
  end.

Lemma contains_char c s : contains (String c "") s = has_char c s.
Proof.
  induction s as [|a s IH]; [done|].
  cbn [contains String.prefix has_char]. rewrite IH.
  destruct (ascii_dec c a) as [->|Hne].
  - rewrite Ascii.eqb_refl. by destruct s.
  - by rewrite (proj2 (Ascii.eqb_neq a c)) by congruence.
Qed.

Lemma lower_ascii_bar a : Ascii.eqb (lower_ascii a) "|" = Ascii.eqb a "|".
Proof. destruct a as [[] [] [] [] [] [] [] []]; reflexivity. Qed.

Lemma lower_ascii_idem a : lower_ascii (lower_ascii a) = lower_ascii a.
Proof. destruct a as [[] [] [] [] [] [] [] []]; reflexivity. Qed.

Lemma has_bar_lower s : has_char "|" (lower s) = has_char "|" s.
Proof.
  induction s as [|a s IH]; [done|].
  cbn [lower has_char]. by rewrite lower_ascii_bar, IH.
Qed.

Lemma lower_idem s : lower (lower s) = lower s.
Proof.
  induction s as [|a s IH]; [done|].
  cbn [lower]. by rewrite lower_ascii_idem, IH.
Qed.

Lemma has_char_rev_app c s1 s2 :
  has_char c (String.rev_app s1 s2) = has_char c s1 || has_char c s2.
Proof.
  revert s2. induction s1 as [|a s1 IH]; intros s2; [done|].
  cbn [String.rev_app has_char]. rewrite IH. cbn [has_char].
  destruct (Ascii.eqb a c), (has_char c s1); reflexivity.
Qed.

Lemma has_char_rev c s : has_char c (String.rev s) = has_char c s.
Proof. unfold String.rev. rewrite has_char_rev_app. cbn. by rewrite orb_false_r. Qed.

Lemma has_char_lstrip c s : has_char c s = false → has_char c (lstrip s) = false.
Proof.
  induction s as [|a s IH]; [done|].
  cbn [lstrip]. destruct (Ascii.is_space a); [|done].
  cbn [has_char]. intros [_ H]%orb_false_iff. by apply IH.
Qed.

Lemma has_char_strip c s : has_char c s = false → has_char c (strip s) = false.
Proof.
  intros H. unfold strip. rewrite has_char_rev. apply has_char_lstrip.
  rewrite has_char_rev. by apply has_char_lstrip.
Qed.

Lemma split_on_head sep cur s :
  has_char sep cur = false →
  match split_on sep cur s with
  | part :: _ => has_char sep part = false
  | [] => True
  end.
Proof.
  revert cur. induction s as [|a s IH]; intros cur Hcur; cbn [split_on].
  - by rewrite has_char_rev.
  - destruct (Ascii.eqb a sep) eqn:E; [by rewrite has_char_rev|].
    apply IH. cbn [has_char]. by rewrite E.
Qed.

(** X27. The search keywords, when they can be built, are in lower case
    and never contain the separator ["|"]. *)
Theorem search_keywords_plain (resume_info : gmap string pyval) (keywords : string) :
  Actor.search_keywords resume_info = Ok keywords →
  contains "|" keywords = false ∧ lower keywords = keywords.
Proof.
  unfold Actor.search_keywords.
  destruct (get_or resume_info "desired_role" _) as [|s|x|t|l]; try done.
  - cbn [str_in]. rewrite bind_Ok.
    change (contains "|" s) with (contains (String "|" "") s).
    rewrite contains_char.
    destruct (has_char "|" s) eqn:E; rewrite bind_Ok; intros [= <-];
      (split; [|apply lower_idem]);
      change (contains "|" ?x) with (contains (String "|" "") x);
      rewrite contains_char, has_bar_lower; [|exact E].
    apply has_char_strip. unfold Actor.first_part, split.
    pose proof (split_on_head "|" "" s eq_refl) as H.
    by destruct (split_on "|" "" s).
  - cbn [str_in]. rewrite bind_Ok. by destruct (bool_decide _).
Qed.

Lemma search_keywords_plain_witness :
  contains "|" "senior data engineer" = false
  ∧ lower "senior data engineer" = "senior data engineer".
Proof.
  apply (search_keywords_plain
           {[ "desired_role" := PStr "Senior Data Engineer | Analytics Lead" ]}).
  vm_compute. reflexivity.
Defined.

(** ** Normalisation and preliminary scoring together *)

(** A record without a posting date that can be read. *)
Definition undated (fromisoformat : string → option Z)
    (job : gmap string pyval) : Prop :=
  ∀ d, PreScorer.resolved_date job = PStr d →
       fromisoformat (JobScraper.replace_Z d) = None.

Lemma normalize_posted_date hash_str fromisoformat now job s dflt :
  JobScraper._normalize_job_data hash_str fromisoformat now job = Ok s →
  undated fromisoformat job →
  get_or s "posted_date" dflt = PDate (now - JobScraper.days 7).
Proof.
  unfold JobScraper._normalize_job_data, undated.
  fold (PreScorer.resolved_date job).
  destruct (str_in _ _) as [b|]; [|done]. rewrite bind_Ok.
  intros H Hdate. destruct (PreScorer.resolved_date job) as [|d| | |];
    try (injection H as <-; reflexivity).
  rewrite (Hdate d eq_refl) in H. injection H as <-. reflexivity.
Qed.

(** A date set a week before the clock is seven days old for the rest of
    that day. *)
Lemma score_a_week_ago (now now' : Z) :
  (now ≤ now' < now + 86400)%Z →
  PreScorer._score_posting_date now' (PDate (now - JobScraper.days 7)) = Ok 1.0.
Proof.
  intros Hclock. unfold PreScorer._score_posting_date, JobScraper.days.
  replace ((now' - (now - 7 * 86400)) / 86400)%Z with 7%Z; [done|].
  apply (Z.div_unique _ _ _ (now' - now)); lia.
Qed.

(** X28. A record without a posting date that can be read is dated a week
    before the clock by the normalizer, and the preliminary scorer, run
    within a day, rates it as a fresh posting: its date score is 1.0. *)
Theorem undated_record_scores_fresh
    (hash_str : gmap string pyval → string) (fromisoformat : string → option Z)
    (now now' : Z) (job s : gmap string pyval) :
  JobScraper._normalize_job_data hash_str fromisoformat now job = Ok s →
  undated fromisoformat job →
  (now ≤ now' < now + 86400)%Z →
  PreScorer._score_posting_date now' (get_or s "posted_date" (PDate now')) = Ok 1.0.
Proof.
  intros Hs Hdate Hclock. rewrite (normalize_posted_date _ _ _ _ _ _ Hs Hdate).
  by apply score_a_week_ago.
Qed.

Lemma undated_record_scores_fresh_witness :
  PreScorer._score_posting_date 1060
    (get_or (<["posted_date" := PDate (1000 - JobScraper.days 7)]>
               (list_to_map
                  [ ("job_id", PStr "0"); ("title", PStr "Software Engineer");
                    ("company", PStr "Acme"); ("location", PStr "New York, NY");
                    ("url", PStr "https://www.indeed.com/viewjob?jk=1");
                    ("source", PStr "Indeed") ]))
            "posted_date" (PDate 1060))
  = Ok 1.0.
Proof.
  apply (undated_record_scores_fresh (λ _, "0") (λ _, None) 1000 1060 indeed_raw).
  - reflexivity.
  - intros d _. reflexivity.
  - lia.
Defined.

(** A raw record all of whose values are strings. *)
Definition string_valued (job : gmap string pyval) : Prop :=
  ∀ k v, job !! k = Some v → ∃ s, v = PStr s.

Lemma string_valued_get_or job k dflt :
  string_valued job → (∃ s, dflt = PStr s) → ∃ s, get_or job k dflt = PStr s.
Proof.
  intros Hjob Hd. unfold get_or. destruct (job !! k) as [v|] eqn:E; [|done].
  by apply (Hjob k v).
Qed.

Lemma score_title_match_str t role :
  ∃ x, PreScorer._score_title_match (PStr t) role = Ok x.
Proof.
  unfold PreScorer._score_title_match. cbn [str_lower]. rewrite bind_Ok.
  destruct (String.eqb _ _); [by eexists|]. destruct (_ || _); by eexists.
Qed.

Lemma score_location_match_str l preferred :
  ∃ x, PreScorer._score_location_match (PStr l) preferred = Ok x.
Proof.
  unfold PreScorer._score_location_match.
  destruct (_ || _); [by eexists|]. cbn [str_lower]. rewrite bind_Ok.
  destruct (contains "remote" _); [by eexists|].
  destruct (contains _ _); by eexists.
Qed.

Lemma score_posting_date_date now t :
  ∃ x, PreScorer._score_posting_date now (PDate t) = Ok x.
Proof.
  unfold PreScorer._score_posting_date.
  repeat (destruct (_ <=? _)%Z; [by eexists|]). by eexists.
Qed.

(** The preliminary scorer answers for every record that holds a string
    title, a string location, a company and a date. *)
Lemma calculate_initial_score_answers now resume (job : gmap string pyval)
    t l c p :
  job !! "title" = Some (PStr t) →
  job !! "location" = Some (PStr l) →
  job !! "company" = Some c →
  job !! "posted_date" = Some (PDate p) →
  ∃ x, PreScorer._calculate_initial_score now job resume = Ok x.
Proof.
  intros Ht Hl Hc Hp. unfold PreScorer._calculate_initial_score.
  unfold PreScorer.getitem, get_or. rewrite Ht, Hl, Hc, Hp. rewrite bind_Ok.
  destruct (score_title_match_str t (PreScorer.desired_role resume)) as [tm ->].
  rewrite !bind_Ok.
  destruct (score_location_match_str l (PreScorer.location_preference resume))
    as [lm ->].
  rewrite !bind_Ok.
  change (default (PDate now) (Some (PDate p))) with (PDate p).
  destruct (score_posting_date_date now p) as [pd ->].
  rewrite bind_Ok. by eexists.
Qed.

(** The scraper's normalizer answers for every string-valued record, with
    a string title and a string location. *)
Lemma normalize_string_valued hash_str fromisoformat now job :
  string_valued job →
  ∃ s t l c p,
    JobScraper._normalize_job_data hash_str fromisoformat now job = Ok s
    ∧ s !! "title" = Some (PStr t) ∧ s !! "location" = Some (PStr l)
    ∧ s !! "company" = Some c ∧ s !! "posted_date" = Some (PDate p).
Proof.
  intros Hjob.
  destruct (string_valued_get_or job "url" (PStr "") Hjob) as [u Hu]; [by eexists|].
  destruct (string_valued_get_or job "title"
              (get_or job "name" (PStr "Unknown Position")) Hjob) as [t Ht];
    [apply string_valued_get_or; [done | by eexists]|].
  destruct (string_valued_get_or job "location"
              (get_or job "place" (PStr "Unknown Location")) Hjob) as [l Hl];
    [apply string_valued_get_or; [done | by eexists]|].
  unfold JobScraper._normalize_job_data. rewrite Hu, Ht, Hl.
  cbn [str_in]. rewrite bind_Ok.
  destruct (get_or job "postedDate" _) as [|d| | |];
    try (eexists _, t, l, _, _; split; [reflexivity|]; repeat split; reflexivity).
  destruct (fromisoformat _);
    eexists _, t, l, _, _; (split; [reflexivity|]); repeat split; reflexivity.
Qed.

Lemma undated_not_aware fromisoformat carries_offset job :
  undated fromisoformat job →
  PreScorer.offset_aware fromisoformat carries_offset job = false.
Proof.
  unfold undated, PreScorer.offset_aware. intros Hdate.
  destruct (PreScorer.resolved_date job) as [|d| | |]; try done.
  by rewrite (Hdate d eq_refl).
Qed.

(** X29. Every raw record whose values are all strings and whose posting
    date cannot be read is normalized and scored without an exception, and
    the score stored in the record lies between 0.55 and 0.94. *)
Theorem string_valued_record_is_scored
    (hash_str : gmap string pyval → string) (fromisoformat : string → option Z)
    (carries_offset : string → bool)
    (now : Z) (resume_data : PreScorer.ResumeData) (job : gmap string pyval) :
  string_valued job →
  undated fromisoformat job →
  ∃ scored,
    PreScorer.score_initial hash_str fromisoformat carries_offset
      now resume_data job = Ok scored
    ∧ 0.55 <= PreScorer.initial_score scored
    ∧ PreScorer.initial_score scored <= 0.94.
Proof.
  intros Hjob Hdate. unfold PreScorer.score_initial.
  destruct (normalize_string_valued hash_str fromisoformat now job Hjob)
    as (s & t & l & c & p & Hs & Ht & Hl & Hc & Hp).
  rewrite Hs, bind_Ok.
  destruct (calculate_initial_score_answers now resume_data s t l c p Ht Hl Hc Hp)
    as [x Hx].
  rewrite Hx, bind_Ok, (undated_not_aware _ carries_offset _ Hdate).
  eexists. split; [reflexivity|].
  unfold PreScorer.initial_score. rewrite lookup_insert_eq.
  apply calculate_initial_score_Ok in Hx as (tm & lm & pd & Htm & Hlm & Hpd & ->).
  rewrite (normalize_posted_date _ _ _ _ _ _ Hs Hdate) in Hpd.
  rewrite (score_a_week_ago now now) in Hpd by lia. injection Hpd as <-.
  apply score_title_match_values in Htm.
  apply score_location_match_values in Hlm.
  destruct Htm as [->|[->| ->]], Hlm as [->| ->];
    split; apply Qle_bool_iff; vm_compute; reflexivity.
Qed.

Lemma indeed_raw_string_valued : string_valued indeed_raw.
Proof.
  change (map_Forall (λ (_ : string) v, ∃ s, v = PStr s) indeed_raw).
  apply map_Forall_to_list.
  let l := eval vm_compute in (map_to_list indeed_raw) in
  replace (map_to_list indeed_raw) with l by (vm_compute; reflexivity).
  repeat (apply Forall_cons; split; [by eexists|]). apply Forall_nil_2.
Qed.

Lemma string_valued_record_is_scored_witness :
  ∃ scored,
    PreScorer.score_initial (λ _, "0") (λ _, None) (λ _, true) 1000
      resume_example indeed_raw
    = Ok scored
    ∧ 0.55 <= PreScorer.initial_score scored
    ∧ PreScorer.initial_score scored <= 0.94.
Proof.
  apply (string_valued_record_is_scored (λ _, "0") (λ _, None) (λ _, true) 1000
           resume_example indeed_raw).
  - exact indeed_raw_string_valued.
  - intros d _. reflexivity.
Defined.

(** A posting date written with an offset is read by the normalizer, and
    scoring the record then raises at the subtraction from the clock. *)
Example offset_date_raises :
  PreScorer.score_initial (λ _, "0") (λ _, Some 0%Z) (λ _, true) 1000
    resume_example (<["postedDate" := PStr "2024-01-01T00:00:00Z"]> indeed_raw)
  = Raise TypeError.
Proof. vm_compute. reflexivity. Qed.
